(** * Workers.js: a content-rewriting forward proxy

    A shallow embedding of [src/后端/Workers.js] and the properties of its
    rewriting pipeline.

    JavaScript strings are sequences of UTF-16 code units; they are modelled
    as lists of [N].  The built-ins the worker calls on strings
    ([encodeURIComponent], [decodeURIComponent], [split], [join], [trim],
    [String.prototype.replace] with the regular expressions of the source)
    are written out following ECMA-262.  The services of the runtime that
    have no counterpart in the source file (the URL parser, the HTML
    tokenizer behind [HTMLRewriter], the text decoder of a body, the
    network) are operations of a [Runtime] interface. *)

From Stdlib Require Import List NArith ZArith Bool String Ascii Lia.
Import ListNotations.
Local Open Scope N_scope.

(** ** JavaScript strings *)

Module JS.

Definition jsstring := list N.

(** UTF-8 bytes of a source literal to UTF-16 code units (used to write the
    string constants of the source; literals are well-formed UTF-8). *)
Definition utf16 (cp : N) : jsstring :=
  if cp <? 0x10000 then [cp]
  else [0xD800 + (cp - 0x10000) / 0x400; 0xDC00 + (cp - 0x10000) mod 0x400].

Fixpoint utf16_of_utf8 (bs : list N) : jsstring :=
  match bs with
  | [] => []
  | b0 :: t0 =>
    if b0 <? 0xC0 then b0 :: utf16_of_utf8 t0
    else match t0 with
    | [] => [b0]
    | b1 :: t1 =>
      if b0 <? 0xE0 then (b0 mod 32 * 64 + b1 mod 64) :: utf16_of_utf8 t1
      else match t1 with
      | [] => [b0; b1]
      | b2 :: t2 =>
        if b0 <? 0xF0
        then (b0 mod 16 * 4096 + b1 mod 64 * 64 + b2 mod 64) :: utf16_of_utf8 t2
        else match t2 with
        | [] => [b0; b1; b2]
        | b3 :: t3 =>
          utf16 (b0 mod 8 * 262144 + b1 mod 64 * 4096 + b2 mod 64 * 64 + b3 mod 64)
            ++ utf16_of_utf8 t3
        end
      end
    end
  end.

Definition js (s : string) : jsstring :=
  utf16_of_utf8 (map N_of_ascii (list_ascii_of_string s)).

Fixpoint eqb (a b : jsstring) : bool :=
  match a, b with
  | [], [] => true
  | x :: a', y :: b' => (x =? y) && eqb a' b'
  | _, _ => false
  end.

(** [s.split(sep)] for a one-character separator. *)
Fixpoint split (sep : N) (s : jsstring) : list jsstring :=
  match s with
  | [] => [[]]
  | c :: t =>
    if c =? sep then [] :: split sep t
    else match split sep t with
         | h :: r => (c :: h) :: r
         | [] => [[c]]
         end
  end.

(** [parts.join(sep)]. *)
Fixpoint join (sep : jsstring) (parts : list jsstring) : jsstring :=
  match parts with
  | [] => []
  | [p] => p
  | p :: rest => p ++ sep ++ join sep rest
  end.

(** [s.startsWith(p)]. *)
Fixpoint startsWith (p s : jsstring) : bool :=
  match p, s with
  | [], _ => true
  | x :: p', y :: s' => (x =? y) && startsWith p' s'
  | _ :: _, [] => false
  end.

(** [s.includes(p)]. *)
Fixpoint includes (p s : jsstring) : bool :=
  startsWith p s ||
  match s with
  | [] => false
  | _ :: t => includes p t
  end.

(** WhiteSpace and LineTerminator code points of ECMA-262: the characters
    removed by [trim] and matched by the class [\s]. *)
Definition isWhiteSpace (c : N) : bool :=
  ((9 <=? c) && (c <=? 13)) || (c =? 0x20) || (c =? 0xA0) || (c =? 0x1680)
  || ((0x2000 <=? c) && (c <=? 0x200A)) || (c =? 0x2028) || (c =? 0x2029)
  || (c =? 0x202F) || (c =? 0x205F) || (c =? 0x3000) || (c =? 0xFEFF).

Fixpoint trimStart (s : jsstring) : jsstring :=
  match s with
  | c :: t => if isWhiteSpace c then trimStart t else s
  | [] => []
  end.

Definition trimEnd (s : jsstring) : jsstring := rev (trimStart (rev s)).

Definition trim (s : jsstring) : jsstring := trimEnd (trimStart s).

(** [s.substring(n)]. *)
Definition substring (n : nat) (s : jsstring) : jsstring := skipn n s.

Definition isUpper (c : N) : bool := (65 <=? c) && (c <=? 90).
Definition isLower (c : N) : bool := (97 <=? c) && (c <=? 122).
Definition isDigit (c : N) : bool := (48 <=? c) && (c <=? 57).

(** [toLowerCase] on the ASCII range.  Code units outside it are kept: the
    worker only compares the result with the ASCII prefix [url=], and no
    character outside ASCII lower-cases to a string starting with one of
    these four letters. *)
Definition lowerChar (c : N) : N := if isUpper c then c + 32 else c.
Definition toLowerCase (s : jsstring) : jsstring := map lowerChar s.

(** A JavaScript string is falsy exactly when it is empty. *)
Definition truthy (s : jsstring) : bool :=
  match s with [] => false | _ => true end.

End JS.
Import JS.

(** ** encodeURIComponent and decodeURIComponent (ECMA-262, 19.2.6) *)

Module URI.

(** The characters [encodeURIComponent] leaves alone: ASCII letters, digits
    and [- _ . ! ~ * ' ( )]. *)
Definition uriUnreserved (c : N) : bool :=
  isUpper c || isLower c || isDigit c
  || existsb (N.eqb c) [45; 95; 46; 33; 126; 42; 39; 40; 41].

Definition isLeadSurrogate (c : N) : bool := (0xD800 <=? c) && (c <=? 0xDBFF).
Definition isTrailSurrogate (c : N) : bool := (0xDC00 <=? c) && (c <=? 0xDFFF).

Definition codePoint (lead trail : N) : N :=
  (lead - 0xD800) * 0x400 + (trail - 0xDC00) + 0x10000.

Definition utf8_encode (cp : N) : list N :=
  if cp <? 0x80 then [cp]
  else if cp <? 0x800 then [0xC0 + cp / 64; 0x80 + cp mod 64]
  else if cp <? 0x10000
  then [0xE0 + cp / 4096; 0x80 + (cp / 64) mod 64; 0x80 + cp mod 64]
  else [0xF0 + cp / 262144; 0x80 + (cp / 4096) mod 64;
        0x80 + (cp / 64) mod 64; 0x80 + cp mod 64].

Definition hexDigit (d : N) : N := if d <? 10 then 48 + d else 55 + d.

(** One octet as [%XX], upper-case hexadecimal. *)
Definition escapeOctet (b : N) : jsstring :=
  [37; hexDigit (b / 16); hexDigit (b mod 16)].

Definition escapeOctets (bs : list N) : jsstring := flat_map escapeOctet bs.

(** [None] stands for the URIError thrown on an unpaired surrogate. *)
Fixpoint encodeURIComponent (s : jsstring) : option jsstring :=
  match s with
  | [] => Some []
  | c :: t =>
    if uriUnreserved c then option_map (cons c) (encodeURIComponent t)
    else if isTrailSurrogate c then None
    else if isLeadSurrogate c then
      match t with
      | d :: t' =>
        if isTrailSurrogate d
        then option_map (app (escapeOctets (utf8_encode (codePoint c d))))
                        (encodeURIComponent t')
        else None
      | [] => None
      end
    else option_map (app (escapeOctets (utf8_encode c))) (encodeURIComponent t)
  end.

Definition hexValue (c : N) : option N :=
  if isDigit c then Some (c - 48)
  else if (65 <=? c) && (c <=? 70) then Some (c - 55)
  else if (97 <=? c) && (c <=? 102) then Some (c - 87)
  else None.

Definition parseHexOctet (h1 h2 : N) : option N :=
  match hexValue h1, hexValue h2 with
  | Some a, Some b => Some (16 * a + b)
  | _, _ => None
  end.

(** Reads one more escape [%XX] that must be a UTF-8 continuation byte and
    hands its six payload bits and the rest of the input to [k]. *)
Definition continuation {A} (s : jsstring) (k : N -> jsstring -> option A)
  : option A :=
  match s with
  | p :: h1 :: h2 :: rest =>
    if p =? 37 then
      match parseHexOctet h1 h2 with
      | Some b => if (0x80 <=? b) && (b <? 0xC0) then k (b - 0x80) rest else None
      | None => None
      end
    else None
  | _ => None
  end.

(** A decoded sequence of [n] octets is valid UTF-8 when it is the shortest
    encoding of a code point that is neither a surrogate nor above
    U+10FFFF. *)
Definition validCodePoint (least v : N) : bool :=
  (least <=? v) && (v <=? 0x10FFFF) && negb ((0xD800 <=? v) && (v <=? 0xDFFF)).

Definition emit (least v : N) (r : option jsstring) : option jsstring :=
  if validCodePoint least v then option_map (app (utf16 v)) r else None.

(** [None] stands for the URIError thrown on a malformed escape. *)
Fixpoint decodeURIComponent (s : jsstring) : option jsstring :=
  match s with
  | [] => Some []
  | c :: t =>
    if negb (c =? 37) then option_map (cons c) (decodeURIComponent t)
    else match t with
    | h1 :: h2 :: t1 =>
      match parseHexOctet h1 h2 with
      | None => None
      | Some b =>
        if b <? 0x80 then option_map (cons b) (decodeURIComponent t1)
        else if b <? 0xC0 then None
        else if b <? 0xE0 then
          continuation t1 (fun b1 t2 =>
            emit 0x80 ((b - 0xC0) * 64 + b1) (decodeURIComponent t2))
        else if b <? 0xF0 then
          continuation t1 (fun b1 t2 =>
          continuation t2 (fun b2 t3 =>
            emit 0x800 ((b - 0xE0) * 4096 + b1 * 64 + b2)
                 (decodeURIComponent t3)))
        else if b <? 0xF8 then
          continuation t1 (fun b1 t2 =>
          continuation t2 (fun b2 t3 =>
          continuation t3 (fun b3 t4 =>
            emit 0x10000 ((b - 0xF0) * 262144 + b1 * 4096 + b2 * 64 + b3)
                 (decodeURIComponent t4))))
        else None
      end
    | _ => None
    end
  end.

End URI.
Import URI.

(** ** Regular expressions

    The patterns of the source are sequences of single-character terms,
    possibly quantified ([x?], [x*], [x+], all greedy), grouped by capturing
    parentheses that follow one another.  Matching is by backtracking, as in
    ECMA-262: a quantifier first takes as much as it can and gives back one
    character at a time when what follows fails. *)

Module RegExp.

Inductive atom :=
| Chr (c : N)              (* a pattern character *)
| OneOf (cs : list N)      (* [...]  *)
| NoneOf (cs : list N)     (* [^...] *)
| Space.                   (* \s     *)

Inductive quant := Once | Opt | Star | Plus.

Definition term := (atom * quant)%type.

Inductive part :=
| Plain (ts : list term)
| Capture (ts : list term).

Record regex := {
  anchored : bool;         (* the pattern starts with ^ *)
  parts : list part;
  ignoreCase : bool;       (* flag i *)
  global : bool            (* flag g *)
}.

(** Canonicalize of ECMA-262 without the [u] flag, as far as it can be seen
    by a pattern written in ASCII: a letter matches both of its cases, and no
    character outside ASCII matches an ASCII one. *)
Definition canonicalize (c : N) : N := if isLower c then c - 32 else c.

Definition sameChar (ic : bool) (p c : N) : bool :=
  if ic then canonicalize p =? canonicalize c else p =? c.

Definition atomMatches (ic : bool) (a : atom) (c : N) : bool :=
  match a with
  | Chr p => sameChar ic p c
  | OneOf cs => existsb (fun p => sameChar ic p c) cs
  | NoneOf cs => negb (existsb (fun p => sameChar ic p c) cs)
  | Space => isWhiteSpace c
  end.

Section Matcher.
Context {A : Type}.
Variable ic : bool.

Fixpoint star (a : atom) (s : jsstring) (k : jsstring -> option A)
  : option A :=
  match s with
  | c :: t =>
    if atomMatches ic a c
    then match star a t k with
         | Some r => Some r
         | None => k s
         end
    else k s
  | [] => k s
  end.

Definition termMatch (t : term) (s : jsstring) (k : jsstring -> option A)
  : option A :=
  let (a, q) := t in
  match q with
  | Once =>
    match s with
    | c :: r => if atomMatches ic a c then k r else None
    | [] => None
    end
  | Opt =>
    match s with
    | c :: r =>
      if atomMatches ic a c
      then match k r with
           | Some x => Some x
           | None => k s
           end
      else k s
    | [] => k s
    end
  | Star => star a s k
  | Plus =>
    match s with
    | c :: r => if atomMatches ic a c then star a r k else None
    | [] => None
    end
  end.

Fixpoint seqMatch (ts : list term) (s : jsstring)
         (k : jsstring -> option A) : option A :=
  match ts with
  | [] => k s
  | t :: ts' => termMatch t s (fun s' => seqMatch ts' s' k)
  end.
End Matcher.

(** What was read between the input [s] and its suffix [rest]. *)
Definition consumed (s rest : jsstring) : jsstring :=
  firstn (List.length s - List.length rest) s.

Fixpoint partsMatch {A} (ic : bool) (ps : list part) (s : jsstring)
         (k : list jsstring -> jsstring -> option A) : option A :=
  match ps with
  | [] => k [] s
  | Plain ts :: ps' => seqMatch ic ts s (fun s1 => partsMatch ic ps' s1 k)
  | Capture ts :: ps' =>
    seqMatch ic ts s (fun s1 =>
      partsMatch ic ps' s1 (fun caps s2 => k (consumed s s1 :: caps) s2))
  end.

(** A match of the whole pattern at the start of [s]: the captures and what
    is left of the input. *)
Definition matchAt (r : regex) (s : jsstring)
  : option (list jsstring * jsstring) :=
  partsMatch (ignoreCase r) (parts r) s (fun caps rest => Some (caps, rest)).

Record found := {
  before : jsstring;
  matched : jsstring;
  captures : list jsstring;
  after : jsstring
}.

(** The leftmost match. *)
Fixpoint search (r : regex) (s : jsstring) : option found :=
  match matchAt r s with
  | Some (caps, rest) =>
    Some {| before := []; matched := consumed s rest;
            captures := caps; after := rest |}
  | None =>
    if anchored r then None
    else match s with
    | [] => None
    | c :: t =>
      match search r t with
      | Some f => Some {| before := c :: before f; matched := matched f;
                          captures := captures f; after := after f |}
      | None => None
      end
    end
  end.

(** [r.test(s)]. *)
Definition test (r : regex) (s : jsstring) : bool :=
  match search r s with Some _ => true | None => false end.

(** A replacement callback gets the match and its captures; [None] means it
    threw. *)
Definition replacer := jsstring -> list jsstring -> option jsstring.

Definition replaceFirst (r : regex) (f : found -> option jsstring)
           (s : jsstring) : option jsstring :=
  match search r s with
  | None => Some s
  | Some m => option_map (fun rep => before m ++ rep ++ after m) (f m)
  end.

(** All matches from left to right; [skip] counts the characters of the
    current match that are still to be dropped, [start] tells whether [s] is
    the whole input. *)
Fixpoint replaceAll (r : regex) (f : replacer) (s : jsstring) (skip : nat)
         (start : bool) : option jsstring :=
  match skip with
  | S n =>
    match s with
    | [] => Some []
    | _ :: t => replaceAll r f t n false
    end
  | O =>
    match (if anchored r && negb start then None else matchAt r s) with
    | Some (caps, rest) =>
      let m := consumed s rest in
      match f m caps with
      | None => None
      | Some rep =>
        match s with
        | [] => Some rep
        | c :: t =>
          match m with
          | [] => option_map (fun o => rep ++ c :: o) (replaceAll r f t 0 false)
          | _ :: m' => option_map (app rep) (replaceAll r f t (List.length m') false)
          end
        end
      end
    | None =>
      match s with
      | [] => Some []
      | c :: t => option_map (cons c) (replaceAll r f t 0 false)
      end
    end
  end.

(** [s.replace(r, callback)]. *)
Definition replaceWith (r : regex) (f : replacer) (s : jsstring)
  : option jsstring :=
  if global r then replaceAll r f s 0 true
  else replaceFirst r (fun m => f (matched m) (captures m)) s.

(** GetSubstitution for a pattern without capturing groups: [$$], [$&],
    [$`] and [$'] are expanded, any other [$] stands for itself. *)
Fixpoint getSubstitution (m : found) (template : jsstring) : jsstring :=
  match template with
  | [] => []
  | c :: t =>
    if c =? 36 then
      match t with
      | d :: t' =>
        if d =? 36 then 36 :: getSubstitution m t'
        else if d =? 38 then matched m ++ getSubstitution m t'
        else if d =? 96 then before m ++ getSubstitution m t'
        else if d =? 39 then after m ++ getSubstitution m t'
        else c :: getSubstitution m t
      | [] => [c]
      end
    else c :: getSubstitution m t
  end.

(** [s.replace(r, template)] for a pattern without the [g] flag and without
    capturing groups. *)
Definition replaceStr (r : regex) (template : jsstring) (s : jsstring)
  : jsstring :=
  match search r s with
  | None => s
  | Some m => before m ++ getSubstitution m template ++ after m
  end.

(** The pattern characters of a literal. *)
Definition lit (s : string) : list term := map (fun c => (Chr c, Once)) (js s).

End RegExp.
Import RegExp.

(** ** The objects of the runtime *)

(** A parsed URL, with the attributes the worker reads. *)
Record URL := {
  href : jsstring;
  protocol : jsstring;
  host : jsstring;
  origin : jsstring;
  pathname : jsstring;
  search : jsstring;
  hash : jsstring
}.

Definition toString (u : URL) : jsstring := href u.

(** A header list keeps its entries in order; names compare without regard
    to ASCII case.  Values are stored as they are given. *)
Module Headers.

Definition t := list (jsstring * jsstring).

Definition sameName (a b : jsstring) : bool :=
  JS.eqb (toLowerCase a) (toLowerCase b).

Definition getAll (h : t) (name : jsstring) : list jsstring :=
  map snd (filter (fun e => sameName (fst e) name) h).

Definition has (h : t) (name : jsstring) : bool :=
  existsb (fun e => sameName (fst e) name) h.

(** [null] when the header is absent, else its values joined by [", "]. *)
Definition get (h : t) (name : jsstring) : option jsstring :=
  match getAll h name with
  | [] => None
  | vs => Some (join (js ", ") vs)
  end.

Definition delete (h : t) (name : jsstring) : t :=
  filter (fun e => negb (sameName (fst e) name)) h.

Definition append (h : t) (name value : jsstring) : t := h ++ [(name, value)].

(** The first entry of that name takes the value and the others go; a new
    name is appended. *)
Fixpoint set (h : t) (name value : jsstring) : t :=
  match h with
  | [] => [(name, value)]
  | e :: h' =>
    if sameName (fst e) name then (fst e, value) :: delete h' name
    else e :: set h' name value
  end.

End Headers.

Inductive Body :=
| NullBody
| Stream (bytes : list N)      (* the octets received from upstream *)
| Text (s : jsstring).         (* a body given as a string *)

Record Response := {
  status : N;
  headers : Headers.t;
  body : Body
}.

Inductive RedirectMode := follow | error | manual.

Record Request := {
  url : jsstring;
  method : jsstring;
  requestHeaders : Headers.t;
  requestBody : Body;
  redirect : RedirectMode
}.

(** The null body statuses of the Fetch Standard. *)
Definition nullBodyStatus (s : N) : bool :=
  existsb (N.eqb s) [101; 204; 205; 304].

Definition hasContent (b : Body) : bool :=
  match b with
  | NullBody => false
  | Stream bs => match bs with [] => false | _ => true end
  | Text s => truthy s
  end.

(** [new Response(body, { status, headers })].  The constructor throws a
    RangeError for a status outside 200..599 and a TypeError when a body
    with content comes with a null body status (Fetch Standard, 5.5; the
    Standard also rejects an empty non-null body there, which the Workers
    runtime lets through).  A string body brings its content type when
    the headers have none. *)
Definition new_Response (b : Body) (st : N) (h : Headers.t)
  : option Response :=
  if (st <? 200) || (599 <? st) then None
  else if nullBodyStatus st && hasContent b then None
  else Some {| status := st;
               headers := match b with
                          | Text _ =>
                            if Headers.has h (js "Content-Type") then h
                            else Headers.append h (js "content-type")
                                   (js "text/plain;charset=UTF-8")
                          | _ => h
                          end;
               body := b |}.

(** [new Response(response.body, response)]: the constructor makes the same
    checks on the status and on the body of [response].  The body is the
    stream of [response], which brings no content type, so the copy has the
    status, the headers and the body of [response]. *)
Definition copyResponse (response : Response) : option Response :=
  match new_Response (body response) (status response) (headers response) with
  | Some _ => Some response
  | None => None
  end.

(** An element handed to a handler of [HTMLRewriter]. *)
Record Element := {
  tagName : jsstring;
  attributes : list (jsstring * jsstring)
}.

Definition getAttribute (el : Element) (name : jsstring) : option jsstring :=
  match filter (fun a => Headers.sameName (fst a) name) (attributes el) with
  | a :: _ => Some (snd a)
  | [] => None
  end.

Fixpoint setAttr (attrs : list (jsstring * jsstring)) (name value : jsstring)
  : list (jsstring * jsstring) :=
  match attrs with
  | [] => [(name, value)]
  | a :: attrs' =>
    if Headers.sameName (fst a) name then (fst a, value) :: attrs'
    else a :: setAttr attrs' name value
  end.

Definition setAttribute (el : Element) (name value : jsstring) : Element :=
  {| tagName := tagName el; attributes := setAttr (attributes el) name value |}.

Inductive token :=
| StartTag (el : Element)
| Markup (raw : jsstring).     (* text, end tags, comments, doctype *)

(** The selectors the worker registers: [tag] and [tag[attr="value"]].
    Tag and attribute names compare without regard to ASCII case, and so
    does the value of [http-equiv], the one attribute the worker selects
    on: [http-equiv="Refresh"] is selected by [meta[http-equiv="refresh"]]. *)
Inductive selector :=
| ByTag (tag : jsstring)
| ByTagAttr (tag attr value : jsstring).

Definition selects (sel : selector) (el : Element) : bool :=
  match sel with
  | ByTag tag => Headers.sameName (tagName el) tag
  | ByTagAttr tag attr value =>
    Headers.sameName (tagName el) tag &&
    match getAttribute el attr with
    | Some v => Headers.sameName v value
    | None => false
    end
  end.

Definition handler := (selector * (Element -> Element))%type.

(** Every start tag goes through the handlers whose selector matches it, in
    the order of registration. *)
Definition visit (hs : list handler) (tk : token) : token :=
  match tk with
  | StartTag el =>
    StartTag (fold_left (fun e (h : handler) =>
                           if selects (fst h) el then snd h e else e) hs el)
  | Markup raw => Markup raw
  end.

(** What the source takes from the runtime. [None] is a thrown TypeError. *)
Class Runtime := {
  URL_ctor : jsstring -> option URL -> option URL;  (* new URL(input, base) *)
  decodeText : list N -> jsstring;                  (* octets of a body as text *)
  tokenize : jsstring -> list token;                (* HTMLRewriter, parsing *)
  serialize : list token -> jsstring                (* HTMLRewriter, output *)
}.

(** [await response.text()]. *)
Definition text `{Runtime} (b : Body) : jsstring :=
  match b with
  | NullBody => []
  | Stream bs => decodeText bs
  | Text s => s
  end.

(** Exceptions: a computation that may throw is an [option]. *)
Notation "x <- c ;; k" :=
  (match c with Some x => k | None => None end)
  (at level 61, c at next level, right associativity).

Definition try_catch {A} (body : option A) (handler : A) : A :=
  match body with
  | Some x => x
  | None => handler
  end.

(** ** The worker *)

Section Worker.
Context `{RT : Runtime}.

(** [/^https?:\/\//i] *)
Definition httpScheme : regex :=
  {| anchored := true;
     parts := [Plain (lit "http" ++ [(Chr 115, Opt)] ++ lit "://")];
     ignoreCase := true; global := false |}.

(** [/;?\s*Domain=[^;]+/i] *)
Definition domainAttribute : regex :=
  {| anchored := false;
     parts := [Plain ([(Chr 59, Opt); (Space, Star)] ++ lit "Domain="
                      ++ [(NoneOf [59], Plus)])];
     ignoreCase := true; global := false |}.

(** [/<\/head>/i] *)
Definition headEnd : regex :=
  {| anchored := false; parts := [Plain (lit "</head>")];
     ignoreCase := true; global := false |}.

(** [rewriteSetCookie], lines 97-100. *)
Definition rewriteSetCookie (cookieStr : jsstring) : jsstring :=
  replaceStr domainAttribute [] cookieStr.

(** [rewriteLocation], lines 102-110. *)
Definition rewriteLocation (location : jsstring) (target : URL)
           (proxyOrigin : jsstring) : jsstring :=
  try_catch
    (absoluteUrl <- URL_ctor location (Some target) ;;
     encodedUrl <- encodeURIComponent (toString absoluteUrl) ;;
     Some (proxyOrigin ++ js "/proxy/" ++ encodedUrl))
    location.

(** [rewriteAttributeValue], lines 172-186. *)
Definition rewriteAttributeValue (attrValue : jsstring) (target : URL)
  : jsstring :=
  try_catch
    (url <- URL_ctor attrValue (Some target) ;;
     if negb (test httpScheme (href url)) then Some attrValue
     else
       encodedUrl <- encodeURIComponent (toString url) ;;
       Some (js "/proxy/" ++ encodedUrl))
    attrValue.

(** [rewriteAttr], lines 164-170. *)
Definition rewriteAttr (el : Element) (attrName : jsstring) (target : URL)
  : Element :=
  match getAttribute el attrName with
  | Some val =>
    if truthy val
    then setAttribute el attrName (rewriteAttributeValue val target)
    else el
  | None => el
  end.

(** The handler of [meta[http-equiv="refresh"]], lines 146-159. *)
Definition rewriteMetaRefresh (el : Element) (target : URL) : Element :=
  match getAttribute el (js "content") with
  | Some content =>
    if truthy content then
      match split 59 content with
      | [delay; second] =>
        let urlPart := trim second in
        if startsWith (js "url=") (toLowerCase urlPart) then
          let urlValue := substring 4 urlPart in
          let newUrl := rewriteAttributeValue urlValue target in
          setAttribute el (js "content") (delay ++ js "; url=" ++ newUrl)
        else el
      | _ => el
      end
    else el
  | None => el
  end.

(** The handlers registered by [applyHTMLRewriter], lines 114-160. *)
Definition handlers (target : URL) : list handler :=
  [ (ByTag (js "a"), fun el => rewriteAttr el (js "href") target);
    (ByTag (js "img"), fun el => rewriteAttr el (js "src") target);
    (ByTag (js "link"), fun el => rewriteAttr el (js "href") target);
    (ByTag (js "script"), fun el => rewriteAttr el (js "src") target);
    (ByTag (js "form"), fun el => rewriteAttr el (js "action") target);
    (ByTag (js "base"), fun el => rewriteAttr el (js "href") target);
    (ByTagAttr (js "meta") (js "http-equiv") (js "refresh"),
     fun el => rewriteMetaRefresh el target) ].

(** [applyHTMLRewriter], lines 113-162. *)
Definition applyHTMLRewriter (response : Response) (target : URL) : Response :=
  {| status := status response;
     headers := headers response;
     body := Text (serialize (map (visit (handlers target))
                                  (tokenize (text (body response))))) |}.

(** The four call shapes of [rewriteInlineJS], each followed by a quote and
    a literal captured one after the other, with flags [gi]; the quote is
    ['] or the double quote. *)
Definition spaces : term := (Space, Star).

Definition shapes : list (list term) :=
  [ lit "window.location" ++ [spaces; (Chr 61, Once); spaces];
    lit "location.href" ++ [spaces; (Chr 61, Once); spaces];
    lit "window.open" ++ [spaces; (Chr 40, Once); spaces];
    lit "document.location" ++ [spaces; (Chr 61, Once); spaces] ].

Definition navigation (literal shape : list term) : regex :=
  {| anchored := false;
     parts := [Capture shape; Capture [(OneOf [39; 34], Once)]; Capture literal];
     ignoreCase := true; global := true |}.

(** [https?:\/\/] and then one or more characters that are not a quote. *)
Definition absoluteLiteral : list term :=
  lit "http" ++ [(Chr 115, Opt)] ++ lit "://" ++ [(NoneOf [39; 34], Plus)].

(** [\/] and then one or more characters that are not a quote. *)
Definition relativeLiteral : list term :=
  [(Chr 47, Once); (NoneOf [39; 34], Plus)].

Definition absolutePatterns : list regex := map (navigation absoluteLiteral) shapes.
Definition relativePatterns : list regex := map (navigation relativeLiteral) shapes.

(** [for (const p of patterns) html = html.replace(p, f)] *)
Fixpoint replaceEach (ps : list regex) (f : replacer) (html : jsstring)
  : option jsstring :=
  match ps with
  | [] => Some html
  | p :: ps' => html' <- replaceWith p f html ;; replaceEach ps' f html'
  end.

(** [rewriteInlineJS], lines 188-224. *)
Definition rewriteInlineJS (html : jsstring) (target : URL)
           (proxyOrigin : jsstring) : option jsstring :=
  html <- replaceEach absolutePatterns
            (fun _ caps =>
               let prefix := nth 0 caps [] in
               let quote := nth 1 caps [] in
               let origUrl := nth 2 caps [] in
               encoded <- encodeURIComponent origUrl ;;
               let newUrl := proxyOrigin ++ js "/proxy/" ++ encoded in
               Some (prefix ++ quote ++ newUrl ++ quote))
            html ;;
  replaceEach relativePatterns
    (fun match_ caps =>
       let prefix := nth 0 caps [] in
       let quote := nth 1 caps [] in
       let origPath := nth 2 caps [] in
       Some (try_catch
               (absoluteUrl <- URL_ctor origPath (Some target) ;;
                encoded <- encodeURIComponent (toString absoluteUrl) ;;
                let newUrl := proxyOrigin ++ js "/proxy/" ++ encoded in
                Some (prefix ++ quote ++ newUrl ++ quote))
               match_))
    html.

Definition dq : jsstring := [34].

(** The script of [injectFakeEnvScript], lines 231-298. *)
Definition fakeEnvScript (fakeHost fakeOrigin fakeProtocol proxyOrigin : jsstring)
  : jsstring :=
  js "
<script>
(function(){
  // 伪造window.location关键属性
  Object.defineProperty(window.location, 'hostname', { get: () => "
  ++ dq
  ++ fakeHost
  ++ dq
  ++ js " });
  Object.defineProperty(window.location, 'host', { get: () => "
  ++ dq
  ++ fakeHost
  ++ dq
  ++ js " });
  Object.defineProperty(window.location, 'origin', { get: () => "
  ++ dq
  ++ fakeOrigin
  ++ dq
  ++ js " });
  Object.defineProperty(window.location, 'protocol', { get: () => "
  ++ dq
  ++ fakeProtocol
  ++ dq
  ++ js " });

  // 伪造document.domain访问
  Object.defineProperty(document, 'domain', {
    get: () => "
  ++ dq
  ++ fakeHost
  ++ dq
  ++ js ",
    set: () => {}
  });

  // 劫持document.cookie访问
  const originalCookieDescriptor = Object.getOwnPropertyDescriptor(Document.prototype, 'cookie') ||
    Object.getOwnPropertyDescriptor(HTMLDocument.prototype, 'cookie');

  Object.defineProperty(document, 'cookie', {
    get() {
      return originalCookieDescriptor.get.call(document);
    },
    set(value) {
      return originalCookieDescriptor.set.call(document, value);
    }
  });

  // 拦截window.location.assign和replace
  const originalAssign = window.location.assign;
  window.location.assign = function(url) {
    if (typeof url === 'string') {
      const newUrl = "
  ++ dq
  ++ proxyOrigin
  ++ js "/proxy/"
  ++ dq
  ++ js " + encodeURIComponent(new URL(url, window.location.origin).toString());
      return originalAssign.call(window.location, newUrl);
    }
    return originalAssign.call(window.location, url);
  };

  const originalReplace = window.location.replace;
  window.location.replace = function(url) {
    if (typeof url === 'string') {
      const newUrl = "
  ++ dq
  ++ proxyOrigin
  ++ js "/proxy/"
  ++ dq
  ++ js " + encodeURIComponent(new URL(url, window.location.origin).toString());
      return originalReplace.call(window.location, newUrl);
    }
    return originalReplace.call(window.location, url);
  };

  // 拦截history.pushState和replaceState
  const originalPushState = history.pushState;
  history.pushState = function(state, title, url) {
    if (typeof url === 'string') {
      const newUrl = "
  ++ dq
  ++ js "/proxy/"
  ++ dq
  ++ js " + encodeURIComponent(new URL(url, window.location.origin).toString());
      return originalPushState.call(history, state, title, newUrl);
    }
    return originalPushState.call(history, state, title, url);
  };

  const originalReplaceState = history.replaceState;
  history.replaceState = function(state, title, url) {
    if (typeof url === 'string') {
      const newUrl = "
  ++ dq
  ++ js "/proxy/"
  ++ dq
  ++ js " + encodeURIComponent(new URL(url, window.location.origin).toString());
      return originalReplaceState.call(history, state, title, newUrl);
    }
    return originalReplaceState.call(history, state, title, url);
  };
})();
</script>
  ".

(** [injectFakeEnvScript], lines 226-301. *)
Definition injectFakeEnvScript (html : jsstring) (target : URL)
           (proxyOrigin : jsstring) : jsstring :=
  let fakeHost := host target in
  let fakeOrigin := origin target in
  let fakeProtocol := protocol target in
  let script := fakeEnvScript fakeHost fakeOrigin fakeProtocol proxyOrigin in
  let replaced := replaceStr headEnd (script ++ js "</head>") html in
  if truthy replaced then replaced else script ++ html.

(** The proxy path of a URL: [`/proxy/${encodeURIComponent(u)}`]. *)
Definition Encode (u : jsstring) : option jsstring :=
  encodedUrl <- encodeURIComponent u ;;
  Some (js "/proxy/" ++ encodedUrl).

Definition defaultTarget : jsstring := js "https://www.google.com".

(** The [try] block of lines 16-30 on the encoded part of the path; [None]
    is the exception caught at line 28. *)
Definition decodeTarget (encodedUrl : jsstring) : option jsstring :=
  if truthy encodedUrl then
    targetUrl <- decodeURIComponent encodedUrl ;;
    let targetUrl :=
      if negb (test httpScheme targetUrl) then js "https://" ++ targetUrl
      else targetUrl in
    _ <- URL_ctor targetUrl None ;;
    Some targetUrl
  else Some defaultTarget.

Inductive decoded :=
| NotProxy                        (* line 11 *)
| InvalidURL                      (* line 29 *)
| Target (targetUrl : jsstring).

(** Lines 9-30: from the path of the request to the URL of the target. *)
Definition Decode (path : jsstring) : decoded :=
  let pathSegments := split 47 path in
  if negb (match nth_error pathSegments 1 with
           | Some segment => JS.eqb segment (js "proxy")
           | None => false
           end)
  then NotProxy
  else
    let encodedUrl := join (js "/") (skipn 2 pathSegments) in
    match decodeTarget encodedUrl with
    | Some targetUrl => Target targetUrl
    | None => InvalidURL
    end.

(** [new Response(message, { status })] for the three fixed replies. *)
Definition plainResponse (message : jsstring) (st : N) : Response :=
  {| status := st;
     headers := [(js "content-type", js "text/plain;charset=UTF-8")];
     body := Text message |}.

Definition notProxyResponse : Response :=
  plainResponse (js "非法访问，路径格式应为 /proxy/<encoded-url>") 501.
Definition invalidUrlResponse : Response :=
  plainResponse (js "Invalid URL") 400.
Definition fetchErrorResponse : Response :=
  plainResponse (js "Error fetching the target site.") 500.

(** Lines 35-43. *)
Definition modifiedRequest (request : Request) (target : URL) : Request :=
  {| url := toString target;
     method := method request;
     requestHeaders := Headers.set (requestHeaders request) (js "Host") (host target);
     requestBody :=
       if negb (JS.eqb (method request) (js "GET"))
          && negb (JS.eqb (method request) (js "HEAD"))
       then requestBody request else NullBody;
     redirect := manual |}.

(** Lines 50-68: [modifiedResponse], the copy of line 47, once its headers
    are rewritten. *)
Definition rewriteHeaders (response : Response) (target : URL)
           (proxyOrigin : jsstring) : Response :=
  let h := headers response in
  let h :=
    if Headers.has (headers response) (js "Set-Cookie") then
      let cookies :=
        map rewriteSetCookie (Headers.getAll (headers response) (js "Set-Cookie")) in
      fold_left (fun h cookie => Headers.append h (js "Set-Cookie") cookie)
                cookies (Headers.delete h (js "Set-Cookie"))
    else h in
  let h :=
    if Headers.has (headers response) (js "Location") then
      match Headers.get (headers response) (js "Location") with
      | Some location =>
        Headers.set h (js "Location") (rewriteLocation location target proxyOrigin)
      | None => h
      end
    else h in
  let h := Headers.delete h (js "Content-Security-Policy") in
  let h := Headers.delete h (js "X-Frame-Options") in
  let h := Headers.delete h (js "X-Content-Type-Options") in
  {| status := status response; headers := h; body := body response |}.

(** Line 70: [response.headers.get('Content-Type') || '']. *)
Definition contentType (response : Response) : jsstring :=
  match Headers.get (headers response) (js "Content-Type") with
  | Some v => v
  | None => []
  end.

(** Lines 46-91, the body of the second [try]. *)
Definition respond (response : Response) (target : URL) (proxyOrigin : jsstring)
  : option Response :=
  modifiedResponse <- copyResponse response ;;
  let modifiedResponse := rewriteHeaders modifiedResponse target proxyOrigin in
  if includes (js "text/html") (contentType response) then
    let html := text (body modifiedResponse) in
    let intermediateResponse :=
      {| status := 200;
         headers := [(js "Content-Type", js "text/html")];
         body := Text html |} in
    let intermediateResponse := applyHTMLRewriter intermediateResponse target in
    let html := text (body intermediateResponse) in
    html <- rewriteInlineJS html target proxyOrigin ;;
    let html := injectFakeEnvScript html target proxyOrigin in
    new_Response (Text html) (status modifiedResponse) (headers modifiedResponse)
  else Some modifiedResponse.

(** [handleRequest], lines 5-95.  The result is the response, or [None] when
    an exception leaves the function, and the requests sent upstream. *)
Definition handleRequest (fetch : Request -> option Response)
           (request : Request) : option Response * list Request :=
  match URL_ctor (url request) None with
  | None => (None, [])
  | Some url =>
    match Decode (pathname url) with
    | NotProxy => (Some notProxyResponse, [])
    | InvalidURL => (Some invalidUrlResponse, [])
    | Target targetUrl =>
      match URL_ctor targetUrl None with
      | None => (None, [])
      | Some target =>
        let modifiedRequest := modifiedRequest request target in
        (Some (try_catch
                 (response <- fetch modifiedRequest ;;
                  respond response target (origin url))
                 fetchErrorResponse),
         [modifiedRequest])
      end
    end
  end.

End Worker.

(** ** A reference runtime

    An instance of [Runtime] on which the statements below can be run on
    sample inputs.  Its URL parser is partial: on the inputs it accepts it
    gives what the URL Standard gives, and it refuses all others, also where
    the Standard accepts them (ports, credentials, IP addresses, spaces,
    characters outside ASCII or that the Standard escapes, [file], [ftp],
    [ws], [wss] and [blob] URLs, special URLs written without [//]).  It accepts
    [http] and [https] URLs with a host made of labels of letters, digits and
    [-], other schemes as opaque URLs, and references without a scheme
    against an [http(s)] base.  Its tokenizer finds the start tags written
    [<name attr="value" ...>] and keeps everything else as markup. *)

Module Reference.

Fixpoint span (p : N -> bool) (s : jsstring) : jsstring * jsstring :=
  match s with
  | c :: t => if p c then let (a, b) := span p t in (c :: a, b) else ([], s)
  | [] => ([], [])
  end.

Definition isAlpha (c : N) : bool := isUpper c || isLower c.

Definition schemeChar (c : N) : bool :=
  isAlpha c || isDigit c || (c =? 43) || (c =? 45) || (c =? 46).

Definition hostChar (c : N) : bool :=
  isAlpha c || isDigit c || (c =? 45) || (c =? 46).

(** Printable ASCII that the parser neither escapes nor rewrites. *)
Definition plainChar (c : N) : bool :=
  (0x21 <=? c) && (c <=? 0x7E)
  && negb (existsb (N.eqb c) [34; 60; 62; 92; 94; 96; 123; 124; 125]).

(** [scheme ":" rest], the scheme in lower case. *)
Definition splitScheme (s : jsstring) : option (jsstring * jsstring) :=
  match s with
  | c :: _ =>
    if isAlpha c then
      match span schemeChar s with
      | (scheme, 58 :: rest) => Some (toLowerCase scheme, rest)
      | _ => None
      end
    else None
  | [] => None
  end.

(** A single-dot and a double-dot path segment, the dot also as [%2e]. *)
Definition isDot (seg : jsstring) : bool :=
  existsb (JS.eqb (toLowerCase seg)) [js "."; js "%2e"].
Definition isDotDot (seg : jsstring) : bool :=
  existsb (JS.eqb (toLowerCase seg)) [js ".."; js ".%2e"; js "%2e."; js "%2e%2e"].

(** The segments of a path with [.] and [..] resolved; [acc] holds the
    segments kept so far, last first. *)
Fixpoint resolveDots (segs acc : list jsstring) : list jsstring :=
  match segs with
  | [] => rev acc
  | seg :: rest =>
    let last := match rest with [] => true | _ => false end in
    if isDotDot seg then resolveDots rest (if last then [] :: tl acc else tl acc)
    else if isDot seg then resolveDots rest (if last then [] :: acc else acc)
    else resolveDots rest (seg :: acc)
  end.

Definition normalizePath (p : jsstring) : jsstring :=
  47 :: join (js "/") (resolveDots (tl (split 47 p)) []).

Definition special (scheme : jsstring) : bool :=
  JS.eqb scheme (js "http") || JS.eqb scheme (js "https").

Definition mkSpecial (scheme host_ path query fragment : jsstring) : URL :=
  {| href := scheme ++ js "://" ++ host_ ++ path ++ query ++ fragment;
     protocol := scheme ++ js ":";
     host := host_;
     origin := scheme ++ js "://" ++ host_;
     pathname := path;
     search := query;
     hash := fragment |}.

(** [path ? query # fragment] *)
Definition splitPath (s : jsstring) : jsstring * jsstring * jsstring :=
  let (path, r) := span (fun c => negb ((c =? 63) || (c =? 35))) s in
  let (query, fragment) := span (fun c => negb (c =? 35)) r in
  (path, query, fragment).

(** A host the parser takes as a domain and only puts in lower case: labels
    that are not empty and not Punycode, the last one not starting with a
    digit (which could make the host an IPv4 address). *)
Definition hostOk (authority : jsstring) : bool :=
  let labels := split 46 authority in
  forallb hostChar authority
  && forallb (fun label => truthy label
                           && negb (startsWith (js "xn--") (toLowerCase label)))
             labels
  && match last labels [] with
     | c :: _ => negb (isDigit c)
     | [] => false
     end.

(** A query and a fragment that are serialized as they are written: no
    ['] in the query, which is escaped there, and neither part empty after
    its mark. *)
Definition tailOk (query fragment : jsstring) : bool :=
  negb (existsb (N.eqb 39) query)
  && negb (JS.eqb query (js "?")) && negb (JS.eqb fragment (js "#")).

Definition parseSpecial (scheme rest : jsstring) : option URL :=
  match rest with
  | 47 :: 47 :: r =>
    let (authority, r1) :=
      span (fun c => negb ((c =? 47) || (c =? 63) || (c =? 35))) r in
    let '(path, query, fragment) := splitPath r1 in
    if hostOk authority && forallb plainChar r1 && tailOk query fragment
    then Some (mkSpecial scheme (toLowerCase authority) (normalizePath path)
                         query fragment)
    else None
  | _ => None
  end.

Definition parseOpaque (scheme rest : jsstring) : option URL :=
  let '(path, query, fragment) := splitPath rest in
  if forallb plainChar rest && tailOk query fragment
     && negb (startsWith (js "/") rest)
  then Some {| href := scheme ++ js ":" ++ rest;
               protocol := scheme ++ js ":";
               host := [];
               origin := js "null";
               pathname := path;
               search := query;
               hash := fragment |}
  else None.

Definition unsupported (scheme : jsstring) : bool :=
  existsb (JS.eqb scheme) [js "file"; js "ftp"; js "ws"; js "wss"; js "blob"].

Definition schemeOf (u : URL) : jsstring :=
  removelast (protocol u).

(** The path of the base without its last segment, then the reference. *)
Definition merge (basePath ref : jsstring) : jsstring :=
  rev (snd (span (fun c => negb (c =? 47)) (rev basePath))) ++ ref.

Definition resolve (input : jsstring) (base : URL) : option URL :=
  let scheme := schemeOf base in
  let '(path, query, fragment) := splitPath input in
  if negb (special scheme) || negb (forallb plainChar input)
     || negb (tailOk query fragment)
  then None
  else match input with
  | [] => Some (mkSpecial scheme (host base) (pathname base) (search base) [])
  | 47 :: 47 :: _ => parseSpecial scheme input
  | 47 :: _ =>
    Some (mkSpecial scheme (host base) (normalizePath path) query fragment)
  | 63 :: _ =>
    Some (mkSpecial scheme (host base) (pathname base) query fragment)
  | 35 :: _ =>
    Some (mkSpecial scheme (host base) (pathname base) (search base) input)
  | _ =>
    Some (mkSpecial scheme (host base)
                    (normalizePath (merge (pathname base) path)) query fragment)
  end.

Definition parse (input : jsstring) (base : option URL) : option URL :=
  match splitScheme input with
  | Some (scheme, rest) =>
    if special scheme then parseSpecial scheme rest
    else if unsupported scheme then None
    else parseOpaque scheme rest
  | None =>
    match base with
    | Some b => resolve input b
    | None => None
    end
  end.

Definition nameChar (c : N) : bool :=
  negb (isWhiteSpace c || existsb (N.eqb c) [34; 39; 47; 60; 61; 62]).

(** The attributes [ name="value"], each after white space, up to the end of
    the tag; [fuel] bounds their number. *)
Fixpoint attributesOf (fuel : nat) (s : jsstring)
  : option (list (jsstring * jsstring)) :=
  match trimStart s with
  | [] => Some []
  | rest =>
    match fuel with
    | O => None
    | S fuel' =>
      match span nameChar rest with
      | (name, 61 :: 34 :: r) =>
        match span (fun c => negb (c =? 34)) r with
        | (value, 34 :: r') =>
          if truthy name
             && match r' with [] => true | c :: _ => isWhiteSpace c end
          then option_map (cons (name, value)) (attributesOf fuel' r')
          else None
        | _ => None
        end
      | _ => None
      end
    end
  end.

(** [<name attr="value" ...] as an element (the closing [>] is not part of
    [raw]). *)
Definition startTag (raw : jsstring) : option Element :=
  match raw with
  | 60 :: c :: _ =>
    if isAlpha c then
      let (name, r) := span (fun c => isAlpha c || isDigit c) (tl raw) in
      match r with
      | [] => Some {| tagName := name; attributes := [] |}
      | d :: _ =>
        if isWhiteSpace d
        then option_map (fun attrs => {| tagName := name; attributes := attrs |})
                        (attributesOf (List.length r) r)
        else None
      end
    else None
  | _ => None
  end.

Definition markup (text : jsstring) : list token :=
  match text with
  | [] => []
  | _ => [Markup (rev text)]
  end.

(** [text] is the markup read so far and [tag] what follows a [<] that may
    open a start tag, both last character first. *)
Fixpoint scan (s text : jsstring) (tag : option jsstring) : list token :=
  match s with
  | [] =>
    markup (match tag with Some raw => raw ++ text | None => text end)
  | c :: t =>
    match tag with
    | None => if c =? 60 then scan t text (Some [c]) else scan t (c :: text) None
    | Some raw =>
      if c =? 62 then
        match startTag (rev raw) with
        | Some el => markup text ++ StartTag el :: scan t [] None
        | None => scan t (c :: raw ++ text) None
        end
      else if c =? 60 then scan t (raw ++ text) (Some [c])
      else scan t text (Some (c :: raw))
    end
  end.

Definition tokens (s : jsstring) : list token := scan s [] None.

Definition printAttribute (a : jsstring * jsstring) : jsstring :=
  32 :: fst a ++ 61 :: 34 :: snd a ++ [34].

Definition print (tk : token) : jsstring :=
  match tk with
  | Markup raw => raw
  | StartTag el => 60 :: tagName el ++ flat_map printAttribute (attributes el) ++ [62]
  end.

#[export] Instance runtime : Runtime :=
  {| URL_ctor := parse;
     decodeText := utf16_of_utf8;
     tokenize := tokens;
     serialize := flat_map print |}.

End Reference.

(** ** Notions of the specification *)

(** A JavaScript string: every element is a 16-bit code unit. *)
Definition codeUnits (s : jsstring) : Prop := Forall (fun c => c < 0x10000) s.

(** Decoding a proxy path and encoding the URL it embeds again. *)
Definition reencode `{Runtime} (path : jsstring) : option jsstring :=
  match Decode path with
  | Target targetUrl => Encode targetUrl
  | _ => None
  end.


(** The refresh directive of the specification: [content] is [delay], a
    semicolon and a second part, neither holding a semicolon, and the second
    part, trimmed, is [url=] in any case followed by [urlValue]. *)
Definition refreshShape (content delay urlValue : jsstring) : Prop :=
  exists second u r l,
    content = delay ++ 59 :: second
    /\ ~ In 59 delay /\ ~ In 59 second
    /\ trim second = u :: r :: l :: 61 :: urlValue
    /\ In u [117; 85] /\ In r [114; 82] /\ In l [108; 76].


(** A response that [new Response] can build again: a status in 200..599, and
    no content in the body when the status is a null body status. *)
Definition constructible (response : Response) : Prop :=
  200 <= status response <= 599
  /\ (nullBodyStatus (status response) = true ->
      hasContent (body response) = false).

(** ** Notions used to state more properties *)

(** The tags with a handler of their own attribute, lines 115-144. *)
Definition rewrittenAttributes : list (string * string) :=
  [ ("a", "href"); ("img", "src"); ("link", "href");
    ("script", "src"); ("form", "action"); ("base", "href") ]%string.

(** The longest prefix of characters satisfying [p] removed. *)
Fixpoint dropWhile (p : N -> bool) (s : jsstring) : jsstring :=
  match s with
  | c :: t => if p c then dropWhile p t else s
  | [] => []
  end.

(** The terms of a literal given by its characters. *)
Definition litTerms (L : jsstring) : list term := map (fun c => (Chr c, Once)) L.

(** A leading semicolon removed. *)
Definition dropSemicolon (s : jsstring) : jsstring :=
  match s with
  | c :: t => if c =? 59 then t else s
  | [] => []
  end.

(** What follows the optional semicolon and the spaces. *)
Definition domainValue (y : jsstring) : option (list jsstring * jsstring) :=
  if startsWith (js "domain=") (toLowerCase y) then
    match skipn 7 y with
    | c :: t =>
      if c =? 59 then None
      else Some ([], dropWhile (fun c => negb (c =? 59)) t)
    | [] => None
    end
  else None.


(** ** Sample exchanges, on the reference runtime *)

Module Sample.

Definition proxyOrigin : jsstring := js "https://proxy.test".

(** [new URL("https://example.com/a/")] *)
Definition target : URL :=
  Reference.mkSpecial (js "https") (js "example.com") (js "/a/") [] [].

Definition getRequest (path : string) : Request :=
  {| url := proxyOrigin ++ js path;
     method := js "GET";
     requestHeaders := [(js "Accept", js "*/*")];
     requestBody := NullBody;
     redirect := follow |}.

Definition pageUrl : jsstring := js "https://example.com/a/".
Definition pagePath : string := "/proxy/https%3A%2F%2Fexample.com%2Fa%2F".

(** [new URL(request.url)] for the request of a path. *)
Definition requestUrl (path : string) : URL :=
  Reference.mkSpecial (js "https") (js "proxy.test") (js path) [] [].

Definition pageRequestUrl : URL := requestUrl pagePath.

Definition pageRequest : Request := getRequest pagePath.
Definition otherRequest : Request := getRequest "/other/thing".
Definition badRequest : Request := getRequest "/proxy/a%20b".

Definition jsonResponse : Response :=
  {| status := 200;
     headers := [ (js "Content-Type", js "application/json");
                  (js "Set-Cookie", js "sid=1; Domain=example.com; Path=/; HttpOnly");
                  (js "Content-Security-Policy", js "default-src 'self'") ];
     body := Stream (js "[1,2,3]") |}.

Definition redirectResponse : Response :=
  {| status := 302;
     headers := [ (js "Location", js "/login") ];
     body := NullBody |}.

Definition emptyHtmlResponse : Response :=
  {| status := 204;
     headers := [ (js "Content-Type", js "text/html; charset=utf-8") ];
     body := NullBody |}.

Definition upstream (response : Response) : Request -> option Response :=
  fun _ => Some response.

Definition unreachable : Request -> option Response := fun _ => None.

Definition refreshElement : Element :=
  {| tagName := js "meta";
     attributes := [ (js "http-equiv", js "refresh");
                     (js "content", js "5;url=https://example.com/x") ] |}.

Definition postRequest : Request :=
  {| url := proxyOrigin ++ js pagePath;
     method := js "POST";
     requestHeaders := [(js "host", js "proxy.test"); (js "Accept", js "*/*")];
     requestBody := Stream (js "a=1");
     redirect := follow |}.

Definition htmlResponse : Response :=
  {| status := 200;
     headers := [ (js "Content-Type", js "text/html");
                  (js "X-Frame-Options", js "DENY") ];
     body := Stream (js "<p>hi</p>") |}.

Definition anchor : Element :=
  {| tagName := js "A";
     attributes := [ (js "class", js "nav"); (js "href", js "/b/c") ] |}.

(** [new URL("/b/c", target)] and [new URL("/login", target)] *)
Definition resolvedUrl (path : string) : URL :=
  Reference.mkSpecial (js "https") (js "example.com") (js path) [] [].

(** [new URL("https://www.google.com")] *)
Definition defaultUrl : URL :=
  Reference.mkSpecial (js "https") (js "www.google.com") (js "/") [] [].

(** A redirect that is not HTML, with the headers the worker rewrites. *)
Definition movedResponse : Response :=
  {| status := 301;
     headers := [ (js "Content-Type", js "text/plain");
                  (js "Location", js "/login");
                  (js "Set-Cookie", js "sid=1; Domain=example.com; Path=/");
                  (js "X-Content-Type-Options", js "nosniff") ];
     body := Stream (js "moved") |}.

(** A redirect with an HTML body. *)
Definition htmlRedirect : Response :=
  {| status := 302;
     headers := [ (js "Content-Type", js "text/html");
                  (js "Location", js "/login") ];
     body := Stream (js "<p>moved</p>") |}.

(** A status outside 200..599. *)
Definition oddResponse : Response :=
  {| status := 999;
     headers := [ (js "Content-Type", js "application/json");
                  (js "Location", js "/login") ];
     body := Stream (js "[1,2,3]") |}.

(** A null body status on the HTML path. *)
Definition notModifiedHtml : Response :=
  {| status := 304;
     headers := [ (js "Content-Type", js "text/html");
                  (js "Location", js "/login") ];
     body := NullBody |}.

(** A page with a head, a refresh directive and a link. *)
Definition page : jsstring :=
  js "<html><head><META http-equiv=" ++ dq ++ js "Refresh" ++ dq
  ++ js " content=" ++ dq ++ js "5;url=/x" ++ dq ++ js "></head><body><a class="
  ++ dq ++ js "nav" ++ dq ++ js " href=" ++ dq ++ js "/b/c" ++ dq
  ++ js ">go</a></body></html>".

Definition pageResponse : Response :=
  {| status := 200;
     headers := [ (js "Content-Type", js "text/html; charset=utf-8") ];
     body := Stream page |}.

(** The page after the element handlers. *)
Definition rewrittenPage (script : jsstring) : jsstring :=
  js "<html><head><META http-equiv=" ++ dq ++ js "Refresh" ++ dq
  ++ js " content=" ++ dq
  ++ js "5; url=/proxy/https%3A%2F%2Fexample.com%2Fx" ++ dq ++ js ">"
  ++ script ++ js "</head><body><a class="
  ++ dq ++ js "nav" ++ dq ++ js " href=" ++ dq
  ++ js "/proxy/https%3A%2F%2Fexample.com%2Fb%2Fc" ++ dq
  ++ js ">go</a></body></html>".

Definition upperRefresh : Element :=
  {| tagName := js "META";
     attributes := [ (js "http-equiv", js "Refresh");
                     (js "content", js "5;url=/x") ] |}.

Definition charsetElement : Element :=
  {| tagName := js "meta";
     attributes := [ (js "charset", js "utf-8") ] |}.

End Sample.

(** ** The URL codec *)


Ltac Zify.zify_post_hook ::= Z.to_euclidean_division_equations.

Ltac bools :=
  repeat match goal with
  | |- context [?a <? ?b] => destruct (N.ltb_spec a b)
  | |- context [?a <=? ?b] => destruct (N.leb_spec a b)
  | |- context [?a =? ?b] => destruct (N.eqb_spec a b)
  end; cbn [andb orb negb]; try lia; try reflexivity.

Lemma hexValue_hexDigit d : d < 16 -> hexValue (hexDigit d) = Some d.
Proof.
  intros Hd. unfold hexValue, hexDigit, isDigit.
  destruct (N.ltb_spec d 10).
  - bools. f_equal. lia.
  - bools. f_equal; lia.
Qed.

Lemma parseHexOctet_escape b :
  b < 256 -> parseHexOctet (hexDigit (b / 16)) (hexDigit (b mod 16)) = Some b.
Proof.
  intros Hb. unfold parseHexOctet.
  rewrite !hexValue_hexDigit by lia. f_equal. lia.
Qed.

Lemma decode_escape b t :
  b < 256 ->
  decodeURIComponent (escapeOctet b ++ t) =
  if b <? 0x80 then option_map (cons b) (decodeURIComponent t)
  else if b <? 0xC0 then None
  else if b <? 0xE0 then
    continuation t (fun b1 t2 =>
      emit 0x80 ((b - 0xC0) * 64 + b1) (decodeURIComponent t2))
  else if b <? 0xF0 then
    continuation t (fun b1 t2 =>
    continuation t2 (fun b2 t3 =>
      emit 0x800 ((b - 0xE0) * 4096 + b1 * 64 + b2) (decodeURIComponent t3)))
  else if b <? 0xF8 then
    continuation t (fun b1 t2 =>
    continuation t2 (fun b2 t3 =>
    continuation t3 (fun b3 t4 =>
      emit 0x10000 ((b - 0xF0) * 262144 + b1 * 4096 + b2 * 64 + b3)
           (decodeURIComponent t4))))
  else None.
Proof.
  intros Hb. unfold escapeOctet.
  cbn [app decodeURIComponent].
  change (37 =? 37) with true. cbn [negb].
  rewrite parseHexOctet_escape by assumption. reflexivity.
Qed.

Lemma continuation_escape {A} b t (k : N -> jsstring -> option A) :
  0x80 <= b < 0xC0 ->
  continuation (escapeOctet b ++ t) k = k (b - 0x80) t.
Proof.
  intros Hb. unfold escapeOctet, continuation. cbn [app].
  change (37 =? 37) with true. cbv iota.
  rewrite parseHexOctet_escape by lia.
  bools.
Qed.

Ltac decide_cmp :=
  repeat match goal with
  | |- context [?a <? ?b] =>
    first [ replace (a <? b) with true by (symmetry; apply N.ltb_lt; lia)
          | replace (a <? b) with false by (symmetry; apply N.ltb_ge; lia) ]
  | |- context [?a <=? ?b] =>
    first [ replace (a <=? b) with true by (symmetry; apply N.leb_le; lia)
          | replace (a <=? b) with false by (symmetry; apply N.leb_gt; lia) ]
  end; cbn [andb orb negb].

Lemma emit_valid least v r :
  least <= v -> v <= 0x10FFFF -> ~ (0xD800 <= v <= 0xDFFF) ->
  emit least v r = option_map (app (utf16 v)) r.
Proof.
  intros H1 H2 H3. unfold emit, validCodePoint.
  decide_cmp.
  destruct (N.leb_spec 0xD800 v); cbn [andb negb]; [|reflexivity].
  decide_cmp. reflexivity.
Qed.

Lemma decode_code_point cp t :
  cp <= 0x10FFFF -> ~ (0xD800 <= cp <= 0xDFFF) ->
  decodeURIComponent (escapeOctets (utf8_encode cp) ++ t) =
  option_map (app (utf16 cp)) (decodeURIComponent t).
Proof.
  intros Hmax Hsur. unfold utf8_encode, escapeOctets.
  destruct (N.ltb_spec cp 0x80);
    [|destruct (N.ltb_spec cp 0x800); [|destruct (N.ltb_spec cp 0x10000)]];
    cbn [flat_map]; rewrite <- ?app_assoc; cbn [app];
    rewrite decode_escape by lia; decide_cmp.
  - unfold utf16. decide_cmp. reflexivity.
  - rewrite continuation_escape by lia.
    replace ((0xC0 + cp / 64 - 0xC0) * 64 + (0x80 + cp mod 64 - 0x80)) with cp by lia.
    apply emit_valid; lia.
  - rewrite !continuation_escape by lia.
    replace ((0xE0 + cp / 4096 - 0xE0) * 4096 + (0x80 + (cp / 64) mod 64 - 0x80) * 64
             + (0x80 + cp mod 64 - 0x80)) with cp by lia.
    apply emit_valid; lia.
  - rewrite !continuation_escape by lia.
    replace ((0xF0 + cp / 262144 - 0xF0) * 262144
             + (0x80 + (cp / 4096) mod 64 - 0x80) * 4096
             + (0x80 + (cp / 64) mod 64 - 0x80) * 64
             + (0x80 + cp mod 64 - 0x80)) with cp by lia.
    apply emit_valid; lia.
Qed.

Lemma codeUnits_forallb s :
  forallb (fun c => c <? 0x10000) s = true -> codeUnits s.
Proof.
  intros H. apply Forall_forall. intros c Hc.
  rewrite forallb_forall in H. now apply N.ltb_lt, H.
Qed.

Lemma unreserved_not_percent c : uriUnreserved c = true -> (c =? 37) = false.
Proof.
  intros H. destruct (N.eqb_spec c 37) as [->|]; [discriminate H|reflexivity].
Qed.

Lemma utf16_unit c : c < 0x10000 -> utf16 c = [c].
Proof. intros H. unfold utf16. decide_cmp. reflexivity. Qed.

Lemma utf16_pair c d :
  isLeadSurrogate c = true -> isTrailSurrogate d = true ->
  utf16 (codePoint c d) = [c; d].
Proof.
  unfold isLeadSurrogate, isTrailSurrogate, utf16, codePoint.
  intros [Hc1 Hc2]%andb_prop [Hd1 Hd2]%andb_prop.
  apply N.leb_le in Hc1, Hc2, Hd1, Hd2.
  decide_cmp. f_equal; [|f_equal]; lia.
Qed.

Lemma codePoint_range c d :
  isLeadSurrogate c = true -> isTrailSurrogate d = true ->
  0x10000 <= codePoint c d <= 0x10FFFF.
Proof.
  unfold isLeadSurrogate, isTrailSurrogate, codePoint.
  intros [Hc1 Hc2]%andb_prop [Hd1 Hd2]%andb_prop.
  apply N.leb_le in Hc1, Hc2, Hd1, Hd2. lia.
Qed.

Lemma decode_encode_bounded n :
  forall s e, (List.length s <= n)%nat -> codeUnits s ->
  encodeURIComponent s = Some e -> decodeURIComponent e = Some s.
Proof.
  induction n as [|n IH]; intros s e Hlen Hs He.
  - destruct s; [|simpl in Hlen; lia]. injection He as <-. reflexivity.
  - destruct s as [|c t]; [injection He as <-; reflexivity|].
    inversion Hs as [|? ? Hc Ht]; subst.
    cbn [encodeURIComponent] in He. cbn [List.length] in Hlen.
    destruct (uriUnreserved c) eqn:Hun.
    { destruct (encodeURIComponent t) as [e'|] eqn:Het; [|discriminate He].
      injection He as <-. cbn [decodeURIComponent].
      rewrite (unreserved_not_percent _ Hun). cbn [negb].
      rewrite (IH t e') by (auto; lia). reflexivity. }
    destruct (isTrailSurrogate c) eqn:Htr; [discriminate He|].
    destruct (isLeadSurrogate c) eqn:Hld.
    { destruct t as [|d t']; [discriminate He|].
      destruct (isTrailSurrogate d) eqn:Hd; [|discriminate He].
      destruct (encodeURIComponent t') as [e'|] eqn:Het; [|discriminate He].
      injection He as <-.
      pose proof (codePoint_range c d Hld Hd).
      rewrite decode_code_point by lia.
      inversion Ht; subst. cbn [List.length] in Hlen.
      rewrite (IH t' e') by (auto; lia).
      cbn [option_map]. rewrite utf16_pair by assumption. reflexivity. }
    destruct (encodeURIComponent t) as [e'|] eqn:Het; [|discriminate He].
    injection He as <-.
    unfold isTrailSurrogate, isLeadSurrogate in Htr, Hld.
    rewrite decode_code_point.
    + rewrite (IH t e') by (auto; lia). cbn [option_map].
      rewrite utf16_unit by assumption. reflexivity.
    + lia.
    + apply andb_false_iff in Htr, Hld. rewrite !N.leb_gt in Htr, Hld. lia.
Qed.

Lemma decode_encode s e :
  codeUnits s -> encodeURIComponent s = Some e -> decodeURIComponent e = Some s.
Proof. intros. eapply decode_encode_bounded; eauto. Qed.

Lemma hexDigit_not_slash d : hexDigit d <> 47.
Proof. unfold hexDigit. destruct (N.ltb_spec d 10); lia. Qed.

Lemma escapeOctets_no_slash bs : Forall (fun c => c <> 47) (escapeOctets bs).
Proof.
  induction bs as [|b bs IH]; [constructor|].
  unfold escapeOctets in *. cbn [flat_map]. apply Forall_app; split; [|exact IH].
  unfold escapeOctet. repeat constructor; try apply hexDigit_not_slash. lia.
Qed.

Lemma unreserved_not_slash c : uriUnreserved c = true -> c <> 47.
Proof. intros H ->. discriminate H. Qed.

Lemma encode_no_slash s :
  forall e, encodeURIComponent s = Some e -> Forall (fun c => c <> 47) e.
Proof.
  assert (forall n s e, (List.length s <= n)%nat ->
            encodeURIComponent s = Some e -> Forall (fun c => c <> 47) e) as G.
  { induction n as [|n IH]; intros s0 e Hlen He.
    - destruct s0; [|simpl in Hlen; lia]. injection He as <-. constructor.
    - destruct s0 as [|c t]; [injection He as <-; constructor|].
      cbn [encodeURIComponent] in He. cbn [List.length] in Hlen.
      destruct (uriUnreserved c) eqn:Hun.
      { destruct (encodeURIComponent t) as [e'|] eqn:Het; [|discriminate He].
        injection He as <-. constructor.
        - now apply unreserved_not_slash.
        - apply (IH t); [lia|assumption]. }
      destruct (isTrailSurrogate c); [discriminate He|].
      destruct (isLeadSurrogate c).
      { destruct t as [|d t']; [discriminate He|].
        destruct (isTrailSurrogate d); [|discriminate He].
        destruct (encodeURIComponent t') as [e'|] eqn:Het; [|discriminate He].
        injection He as <-. apply Forall_app; split.
        - apply escapeOctets_no_slash.
        - apply (IH t'); [cbn [List.length] in Hlen; lia|assumption]. }
      destruct (encodeURIComponent t) as [e'|] eqn:Het; [|discriminate He].
      injection He as <-. apply Forall_app; split.
      + apply escapeOctets_no_slash.
      + apply (IH t); [lia|assumption]. }
  intros e. apply (G (List.length s)). lia.
Qed.

Lemma encode_nonempty s e :
  encodeURIComponent s = Some e -> truthy s = true -> truthy e = true.
Proof.
  destruct s as [|c t]; [discriminate 2|]. intros He _.
  cbn [encodeURIComponent] in He.
  destruct (uriUnreserved c).
  { destruct (encodeURIComponent t); [|discriminate]. injection He as <-. reflexivity. }
  destruct (isTrailSurrogate c); [discriminate|].
  assert (forall cp r, truthy (escapeOctets (utf8_encode cp) ++ r) = true) as G.
  { intros cp r. unfold utf8_encode.
    destruct (cp <? 0x80); [reflexivity|].
    destruct (cp <? 0x800); [reflexivity|].
    destruct (cp <? 0x10000); reflexivity. }
  destruct (isLeadSurrogate c).
  { destruct t as [|d t']; [discriminate|].
    destruct (isTrailSurrogate d); [|discriminate].
    destruct (encodeURIComponent t'); [|discriminate]. injection He as <-. apply G. }
  destruct (encodeURIComponent t); [|discriminate]. injection He as <-. apply G.
Qed.

Lemma eqb_refl s : JS.eqb s s = true.
Proof. induction s as [|c s IH]; [reflexivity|]. cbn [JS.eqb]. now rewrite N.eqb_refl. Qed.

Lemma eqb_eq a b : JS.eqb a b = true <-> a = b.
Proof.
  split; [|intros ->; apply eqb_refl].
  revert b. induction a as [|x a IH]; intros [|y b] H; try discriminate; [reflexivity|].
  cbn [JS.eqb] in H. apply andb_prop in H as [H1 H2].
  apply N.eqb_eq in H1. subst. f_equal. now apply IH.
Qed.

Lemma split_no_sep sep s : Forall (fun c => c <> sep) s -> split sep s = [s].
Proof.
  induction 1 as [|c t Hc _ IH]; [reflexivity|].
  cbn [split]. apply N.eqb_neq in Hc. now rewrite Hc, IH.
Qed.

Lemma split_app_sep sep a t :
  Forall (fun c => c <> sep) a -> split sep (a ++ sep :: t) = a :: split sep t.
Proof.
  induction 1 as [|c a' Hc _ IH]; cbn [app split].
  - now rewrite N.eqb_refl.
  - apply N.eqb_neq in Hc. now rewrite Hc, IH.
Qed.

Ltac eval_js :=
  repeat match goal with
  | |- context [js ?s] =>
    let v := eval vm_compute in (js s) in change (js s) with v
  end.

Lemma split_proxy_path e :
  Forall (fun c => c <> 47) e -> split 47 (js "/proxy/" ++ e) = [[]; js "proxy"; e].
Proof.
  intros He.
  change (js "/proxy/" ++ e) with ([] ++ 47 :: (js "proxy" ++ 47 :: e)).
  rewrite split_app_sep by constructor.
  rewrite split_app_sep.
  - now rewrite split_no_sep.
  - eval_js. repeat constructor; discriminate.
Qed.

Section RoundTrip.
Context `{RT : Runtime}.

Lemma Decode_proxy_path e :
  Forall (fun c => c <> 47) e ->
  Decode (js "/proxy/" ++ e) =
  match decodeTarget e with Some t => Target t | None => InvalidURL end.
Proof.
  intros He. unfold Decode. rewrite split_proxy_path by assumption.
  cbn [nth_error skipn join]. rewrite eqb_refl. reflexivity.
Qed.

Lemma test_httpScheme_truthy u : test httpScheme u = true -> truthy u = true.
Proof. destruct u; [discriminate|reflexivity]. Qed.

Lemma Decode_Encode u p :
  codeUnits u -> test httpScheme u = true -> URL_ctor u None <> None ->
  Encode u = Some p -> Decode p = Target u.
Proof.
  intros Hcu Htest Hurl Hp. unfold Encode in Hp.
  destruct (encodeURIComponent u) as [e|] eqn:He; [|discriminate].
  assert (p = js "/proxy/" ++ e) as -> by (now injection Hp).
  rewrite Decode_proxy_path by (eapply encode_no_slash; eassumption).
  unfold decodeTarget.
  rewrite (encode_nonempty _ _ He (test_httpScheme_truthy _ Htest)).
  rewrite (decode_encode _ _ Hcu He), Htest. cbn [negb].
  destruct (URL_ctor u None); [reflexivity|congruence].
Qed.

Lemma test_httpScheme_prefixed x : test httpScheme (js "https://" ++ x) = true.
Proof. reflexivity. Qed.

Lemma Decode_Target_scheme q u : Decode q = Target u -> test httpScheme u = true.
Proof.
  unfold Decode, decodeTarget.
  destruct (negb _); [discriminate|].
  destruct (truthy _); [|intros [= <-]; reflexivity].
  destruct (decodeURIComponent _) as [t|]; [|discriminate].
  destruct (test httpScheme t) eqn:Ht; cbn [negb];
    (destruct (URL_ctor _ None); [|discriminate]); intros [= <-];
    [exact Ht|apply test_httpScheme_prefixed].
Qed.

(** C1. Let [u] be a valid absolute http(s) URL: a string of code units
    that the URL parser accepts, with proxy path [p = Encode u].  If [u] is
    written with its scheme ([http://] or [https://], in any case), decoding
    [p] gives [u] back.  Decoding and encoding again is idempotent: every
    path that decodes to [u] is re-encoded as [p], and [p] is re-encoded as
    itself. *)
Theorem proxy_path_round_trip (u p : jsstring) :
  codeUnits u -> URL_ctor u None <> None -> Encode u = Some p ->
  (test httpScheme u = true -> Decode p = Target u)
  /\ (forall q, Decode q = Target u -> reencode q = Some p /\ reencode p = Some p).
Proof.
  intros Hcu Hurl Hp. split.
  - intros Htest. now apply Decode_Encode.
  - intros q Hq. unfold reencode. rewrite Hq.
    rewrite (Decode_Encode u p Hcu (Decode_Target_scheme q u Hq) Hurl Hp). auto.
Qed.
End RoundTrip.

(** ** Header lists *)

Module HeadersFacts.
Import Headers.

Lemma sameName_refl a : sameName a a = true.
Proof. apply eqb_refl. Qed.

Lemma sameName_trans a n m :
  sameName a n = true -> sameName a m = sameName n m.
Proof. unfold sameName. intros H%eqb_eq. now rewrite H. Qed.

Lemma getAll_cons e h m :
  getAll (e :: h) m = if sameName (fst e) m then snd e :: getAll h m else getAll h m.
Proof. unfold getAll. cbn [filter]. now destruct (sameName (fst e) m). Qed.

Lemma getAll_app h1 h2 m : getAll (h1 ++ h2) m = getAll h1 m ++ getAll h2 m.
Proof. unfold getAll. now rewrite filter_app, map_app. Qed.

Lemma has_getAll h n : has h n = match getAll h n with [] => false | _ => true end.
Proof.
  induction h as [|e h IH]; [reflexivity|].
  rewrite getAll_cons. cbn [has existsb].
  destruct (sameName (fst e) n); [reflexivity|exact IH].
Qed.

Lemma getAll_delete_same h n : getAll (delete h n) n = [].
Proof.
  induction h as [|e h IH]; [reflexivity|].
  cbn [delete filter]. destruct (sameName (fst e) n) eqn:E; cbn [negb].
  - exact IH.
  - fold (delete h n). now rewrite getAll_cons, E.
Qed.

Lemma getAll_delete_other h n m :
  sameName n m = false -> getAll (delete h n) m = getAll h m.
Proof.
  intros Hnm. induction h as [|e h IH]; [reflexivity|].
  cbn [delete filter]. fold (delete h n). rewrite getAll_cons.
  destruct (sameName (fst e) n) eqn:E; cbn [negb].
  - rewrite (sameName_trans _ _ m E), Hnm. exact IH.
  - rewrite getAll_cons. now rewrite IH.
Qed.

Lemma getAll_set_same h n v : getAll (set h n v) n = [v].
Proof.
  induction h as [|e h IH]; cbn [set].
  - now rewrite getAll_cons; cbn [fst snd]; rewrite sameName_refl.
  - destruct (sameName (fst e) n) eqn:E.
    + rewrite getAll_cons. cbn [fst snd]. now rewrite E, getAll_delete_same.
    + now rewrite getAll_cons, E.
Qed.

Lemma getAll_set_other h n v m :
  sameName n m = false -> getAll (set h n v) m = getAll h m.
Proof.
  intros Hnm. induction h as [|e h IH]; cbn [set].
  - rewrite getAll_cons. cbn [fst]. now rewrite Hnm.
  - destruct (sameName (fst e) n) eqn:E.
    + rewrite !getAll_cons. cbn [fst snd].
      rewrite (sameName_trans _ _ m E), Hnm. now apply getAll_delete_other.
    + rewrite !getAll_cons. now rewrite IH.
Qed.

Lemma getAll_append_all h n vs m :
  getAll (fold_left (fun h v => append h n v) vs h) m =
  getAll h m ++ (if sameName n m then vs else []).
Proof.
  revert h. induction vs as [|v vs IH]; intros h; cbn [fold_left].
  - now destruct (sameName n m); rewrite app_nil_r.
  - rewrite IH. unfold append. rewrite getAll_app, getAll_cons. cbn [fst snd].
    destruct (sameName n m); cbn [getAll filter map]; rewrite <- app_assoc; reflexivity.
Qed.

Lemma get_getAll h n :
  get h n = match getAll h n with [] => None | vs => Some (join (js ", ") vs) end.
Proof. reflexivity. Qed.

End HeadersFacts.

Module RewriteHeadersFacts.
Import Headers HeadersFacts.

Lemma sameName_right a n m : sameName n m = true -> sameName a n = sameName a m.
Proof. unfold sameName. intros H%eqb_eq. now rewrite H. Qed.

Lemma getAll_same_name h n m : sameName n m = true -> getAll h n = getAll h m.
Proof.
  intros H. unfold getAll. f_equal. apply filter_ext.
  intros e. now apply sameName_right.
Qed.

Lemma has_delete_same h n : has (delete h n) n = false.
Proof. now rewrite has_getAll, getAll_delete_same. Qed.

Lemma has_delete_other h n m :
  sameName n m = false -> has (delete h n) m = has h m.
Proof. intros H. now rewrite !has_getAll, getAll_delete_other. Qed.

Section Stages.
Context `{RT : Runtime}.
Variables (response : Response) (target : URL) (proxyOrigin : jsstring).

Let out := rewriteHeaders response target proxyOrigin.

Lemma rewriteHeaders_status : status out = status response.
Proof. reflexivity. Qed.

Lemma rewriteHeaders_body : body out = body response.
Proof. reflexivity. Qed.

(** The values of a header after the three deletions of lines 66-68. *)
Lemma getAll_security_deleted h m :
  sameName (js "Content-Security-Policy") m = false ->
  sameName (js "X-Frame-Options") m = false ->
  sameName (js "X-Content-Type-Options") m = false ->
  getAll (delete (delete (delete h (js "Content-Security-Policy"))
                         (js "X-Frame-Options"))
                 (js "X-Content-Type-Options")) m = getAll h m.
Proof. intros H1 H2 H3. now rewrite !getAll_delete_other. Qed.

(** The values of a header after the Set-Cookie stage, lines 50-56. *)
Lemma getAll_cookie_stage h m :
  getAll (if has h (js "Set-Cookie")
          then fold_left (fun h cookie => append h (js "Set-Cookie") cookie)
                 (map rewriteSetCookie (getAll h (js "Set-Cookie")))
                 (delete h (js "Set-Cookie"))
          else h) m =
  if sameName (js "Set-Cookie") m
  then map rewriteSetCookie (getAll h (js "Set-Cookie"))
  else getAll h m.
Proof.
  destruct (has h (js "Set-Cookie")) eqn:Hhas.
  - rewrite getAll_append_all.
    destruct (sameName (js "Set-Cookie") m) eqn:E.
    + rewrite <- (getAll_same_name _ _ _ E), getAll_delete_same. reflexivity.
    + rewrite getAll_delete_other by assumption. apply app_nil_r.
  - destruct (sameName (js "Set-Cookie") m) eqn:E; [|reflexivity].
    rewrite <- (getAll_same_name _ _ _ E).
    rewrite has_getAll in Hhas.
    destruct (getAll h (js "Set-Cookie")); [reflexivity|discriminate].
Qed.

Lemma rewriteHeaders_cookies :
  getAll (headers out) (js "Set-Cookie") =
  map rewriteSetCookie (getAll (headers response) (js "Set-Cookie")).
Proof.
  unfold out, rewriteHeaders. cbn [headers].
  rewrite getAll_security_deleted by reflexivity.
  destruct (has (headers response) (js "Location")).
  - destruct (get (headers response) (js "Location")).
    + rewrite getAll_set_other by reflexivity. now rewrite getAll_cookie_stage.
    + now rewrite getAll_cookie_stage.
  - now rewrite getAll_cookie_stage.
Qed.

Lemma rewriteHeaders_location :
  get (headers out) (js "Location") =
  option_map (fun location => rewriteLocation location target proxyOrigin)
             (get (headers response) (js "Location")).
Proof.
  unfold out, rewriteHeaders. cbn [headers].
  rewrite get_getAll, getAll_security_deleted by reflexivity.
  rewrite has_getAll, (get_getAll (headers response)).
  destruct (getAll (headers response) (js "Location")) as [|v vs] eqn:E.
  - rewrite getAll_cookie_stage. change (sameName _ _) with false. cbv iota.
    now rewrite E.
  - rewrite getAll_set_same. reflexivity.
Qed.

Lemma rewriteHeaders_security :
  has (headers out) (js "Content-Security-Policy") = false
  /\ has (headers out) (js "X-Frame-Options") = false
  /\ has (headers out) (js "X-Content-Type-Options") = false.
Proof.
  unfold out, rewriteHeaders. cbn [headers]. repeat split.
  - rewrite !has_delete_other by reflexivity. apply has_delete_same.
  - rewrite has_delete_other by reflexivity. apply has_delete_same.
  - apply has_delete_same.
Qed.

(** Headers the worker does not name keep their values. *)
Lemma rewriteHeaders_others m :
  sameName (js "Set-Cookie") m = false ->
  sameName (js "Location") m = false ->
  sameName (js "Content-Security-Policy") m = false ->
  sameName (js "X-Frame-Options") m = false ->
  sameName (js "X-Content-Type-Options") m = false ->
  getAll (headers out) m = getAll (headers response) m.
Proof.
  intros H1 H2 H3 H4 H5. unfold out, rewriteHeaders. cbn [headers].
  rewrite getAll_security_deleted by assumption.
  destruct (has (headers response) (js "Location")).
  - destruct (get (headers response) (js "Location")).
    + rewrite getAll_set_other by assumption. now rewrite getAll_cookie_stage, H1.
    + now rewrite getAll_cookie_stage, H1.
  - now rewrite getAll_cookie_stage, H1.
Qed.

End Stages.
End RewriteHeadersFacts.
(** ** The request handler *)

Section Handler.
Context `{RT : Runtime}.
Import Headers HeadersFacts RewriteHeadersFacts.

Lemma truthy_app_l a b : truthy a = true -> truthy (a ++ b) = true.
Proof. destruct a; [discriminate|reflexivity]. Qed.

Lemma fakeEnvScript_truthy a b c d : truthy (fakeEnvScript a b c d) = true.
Proof. unfold fakeEnvScript. apply truthy_app_l. reflexivity. Qed.

Lemma injectFakeEnvScript_truthy html target proxyOrigin :
  truthy (injectFakeEnvScript html target proxyOrigin) = true.
Proof.
  unfold injectFakeEnvScript. cbv zeta.
  destruct (truthy (replaceStr _ _ _)) eqn:E; [exact E|].
  apply truthy_app_l, fakeEnvScript_truthy.
Qed.

(** The copy of line 47 is the response itself, when it can be made. *)
Lemma copyResponse_Some response copied :
  copyResponse response = Some copied -> copied = response.
Proof.
  unfold copyResponse. destruct (new_Response _ _ _); [|discriminate].
  now intros [= <-].
Qed.

Lemma copyResponse_constructible response :
  constructible response -> copyResponse response = Some response.
Proof.
  intros [[Hlo Hhi] Hnull]. unfold copyResponse, new_Response.
  apply N.ltb_ge in Hlo. rewrite Hlo.
  assert ((599 <? status response) = false) as -> by (apply N.ltb_ge; lia).
  cbn [orb]. destruct (nullBodyStatus (status response)); [|reflexivity].
  now rewrite Hnull.
Qed.

Lemma copyResponse_out_of_range response :
  status response < 200 \/ 599 < status response ->
  copyResponse response = None.
Proof.
  intros H. unfold copyResponse, new_Response.
  assert (((status response <? 200) || (599 <? status response)) = true) as ->;
    [|reflexivity].
  apply orb_true_iff. rewrite !N.ltb_lt. exact H.
Qed.

Lemma respond_non_html response target proxyOrigin :
  constructible response ->
  includes (js "text/html") (contentType response) = false ->
  respond response target proxyOrigin
  = Some (rewriteHeaders response target proxyOrigin).
Proof.
  intros Hc H. unfold respond.
  now rewrite copyResponse_constructible, H.
Qed.

Lemma respond_html_null_body response target proxyOrigin :
  includes (js "text/html") (contentType response) = true ->
  nullBodyStatus (status response) = true ->
  respond response target proxyOrigin = None.
Proof.
  intros Hhtml Hnull. unfold respond.
  destruct (copyResponse response) as [copied|] eqn:Hcopy; [|reflexivity].
  apply copyResponse_Some in Hcopy. subst copied.
  rewrite Hhtml. cbv zeta.
  destruct (rewriteInlineJS _ _ _) as [html|]; [|reflexivity].
  unfold new_Response. rewrite rewriteHeaders_status, Hnull.
  cbn [hasContent]. rewrite injectFakeEnvScript_truthy.
  now destruct (_ || _).
Qed.

Lemma respond_out_of_range response target proxyOrigin :
  status response < 200 \/ 599 < status response ->
  respond response target proxyOrigin = None.
Proof.
  intros H. unfold respond. now rewrite copyResponse_out_of_range.
Qed.

Lemma html_keeps_content_type response target proxyOrigin :
  includes (js "text/html") (contentType response) = true ->
  has (headers (rewriteHeaders response target proxyOrigin)) (js "Content-Type")
  = true.
Proof.
  intros Hhtml. rewrite has_getAll, rewriteHeaders_others by reflexivity.
  unfold contentType in Hhtml. rewrite get_getAll in Hhtml.
  destruct (getAll (headers response) (js "Content-Type")); [discriminate|reflexivity].
Qed.

(** The reply of the HTML path, lines 72-88, when it can be built. *)
Lemma respond_html_built response target proxyOrigin html :
  includes (js "text/html") (contentType response) = true ->
  200 <= status response <= 599 ->
  nullBodyStatus (status response) = false ->
  rewriteInlineJS
    (serialize (map (visit (handlers target)) (tokenize (text (body response)))))
    target proxyOrigin = Some html ->
  respond response target proxyOrigin
  = Some {| status := status response;
            headers := headers (rewriteHeaders response target proxyOrigin);
            body := Text (injectFakeEnvScript html target proxyOrigin) |}.
Proof.
  intros Hhtml Hrange Hnull Hjs. unfold respond.
  rewrite copyResponse_constructible
    by (split; [exact Hrange|intros E; rewrite E in Hnull; discriminate]).
  rewrite Hhtml. cbv zeta.
  unfold applyHTMLRewriter. cbn [body text status].
  rewrite rewriteHeaders_body, Hjs, rewriteHeaders_status.
  unfold new_Response. rewrite Hnull. destruct Hrange as [Hlo Hhi].
  apply N.ltb_ge in Hlo. rewrite Hlo.
  assert ((599 <? status response) = false) as -> by (apply N.ltb_ge; lia).
  cbn [orb andb]. now rewrite html_keeps_content_type.
Qed.

Lemma handleRequest_fetched fetch request requestUrl targetUrl target response :
  URL_ctor (url request) None = Some requestUrl ->
  Decode (pathname requestUrl) = Target targetUrl ->
  URL_ctor targetUrl None = Some target ->
  fetch (modifiedRequest request target) = Some response ->
  handleRequest fetch request
  = (Some (try_catch (respond response target (origin requestUrl)) fetchErrorResponse),
     [modifiedRequest request target]).
Proof.
  intros H1 H2 H3 H4. unfold handleRequest. now rewrite H1, H2, H3, H4.
Qed.

Lemma new_Response_facts b st h out :
  new_Response b st h = Some out ->
  status out = st /\ body out = b
  /\ forall m, sameName (js "content-type") m = false ->
               getAll (headers out) m = getAll h m.
Proof.
  unfold new_Response.
  destruct (_ || _); [discriminate|]. destruct (_ && _); [discriminate|].
  intros [= <-]. cbn [status body headers]. repeat split.
  intros m Hm. destruct b; try reflexivity.
  destruct (has h (js "Content-Type")); [reflexivity|].
  unfold append. rewrite getAll_app, getAll_cons. cbn [fst].
  rewrite Hm. apply app_nil_r.
Qed.

(** What a response built by lines 46-91 keeps of the upstream response. *)
Lemma respond_facts response target proxyOrigin out :
  respond response target proxyOrigin = Some out ->
  status out = status response
  /\ forall m, sameName (js "content-type") m = false ->
       getAll (headers out) m
       = getAll (headers (rewriteHeaders response target proxyOrigin)) m.
Proof.
  unfold respond.
  destruct (copyResponse response) as [copied|] eqn:Hcopy; [|discriminate].
  apply copyResponse_Some in Hcopy. subst copied.
  destruct (includes _ _).
  - cbv zeta. destruct (rewriteInlineJS _ _ _); [|discriminate].
    intros H%new_Response_facts. destruct H as (H1 & _ & H3).
    split; [exact H1|exact H3].
  - intros [= <-]. split; reflexivity.
Qed.

(** C5, as corrected.  For every upstream response whose Content-Type does
    not contain [text/html]: when the response can be copied (a status in
    200..599, and no content with a null body status), the worker returns
    the body of the upstream response as it is, and the header
    transformations are applied: every Set-Cookie value is rewritten by
    [rewriteSetCookie], Location is rewritten by [rewriteLocation], and the
    three security headers are gone.  When the status is outside 200..599,
    the reply is the fixed 500 response. *)
Theorem non_html_body_passes_through fetch request requestUrl targetUrl target response :
  URL_ctor (url request) None = Some requestUrl ->
  Decode (pathname requestUrl) = Target targetUrl ->
  URL_ctor targetUrl None = Some target ->
  fetch (modifiedRequest request target) = Some response ->
  includes (js "text/html") (contentType response) = false ->
  (constructible response ->
   exists out,
     fst (handleRequest fetch request) = Some out
     /\ body out = body response
     /\ getAll (headers out) (js "Set-Cookie")
        = map rewriteSetCookie (getAll (headers response) (js "Set-Cookie"))
     /\ get (headers out) (js "Location")
        = option_map (fun location => rewriteLocation location target (origin requestUrl))
                     (get (headers response) (js "Location"))
     /\ has (headers out) (js "Content-Security-Policy") = false
     /\ has (headers out) (js "X-Frame-Options") = false
     /\ has (headers out) (js "X-Content-Type-Options") = false)
  /\ (status response < 200 \/ 599 < status response ->
      fst (handleRequest fetch request) = Some fetchErrorResponse).
Proof.
  intros H1 H2 H3 H4 Hct.
  rewrite (handleRequest_fetched _ _ _ _ _ _ H1 H2 H3 H4). cbn [fst].
  split.
  - intros Hc. exists (rewriteHeaders response target (origin requestUrl)).
    rewrite respond_non_html by assumption. cbn [try_catch].
    split; [reflexivity|]. split; [reflexivity|].
    split; [apply rewriteHeaders_cookies|].
    split; [apply rewriteHeaders_location|].
    apply rewriteHeaders_security.
  - intros Hout. now rewrite respond_out_of_range.
Qed.

(** C3, as corrected.  The request sent upstream never follows redirects.
    When the upstream response carries a Location header, the reply carries
    [rewriteLocation] of its value (the proxy's origin, then [/proxy/], then
    the percent-encoded URL the value resolves to against the target, or the
    value itself when it does not resolve): on the path of a response that is
    not HTML, when the response can be copied (a status in 200..599, and no
    content with a null body status), and on the HTML path, when the status
    is in 200..599 and not a null body status and [rewriteInlineJS] does not
    throw on the page.  When the status is outside 200..599, the reply is the
    fixed 500 response, which has no Location header. *)
Theorem location_rewritten fetch request requestUrl targetUrl target response location :
  URL_ctor (url request) None = Some requestUrl ->
  Decode (pathname requestUrl) = Target targetUrl ->
  URL_ctor targetUrl None = Some target ->
  fetch (modifiedRequest request target) = Some response ->
  get (headers response) (js "Location") = Some location ->
  let proxyOrigin := origin requestUrl in
  let rewritten := rewriteLocation location target proxyOrigin in
  (snd (handleRequest fetch request) = [modifiedRequest request target]
   /\ redirect (modifiedRequest request target) = manual)
  /\ (includes (js "text/html") (contentType response) = false ->
      constructible response ->
      exists out,
        fst (handleRequest fetch request) = Some out
        /\ get (headers out) (js "Location") = Some rewritten)
  /\ (includes (js "text/html") (contentType response) = true ->
      200 <= status response <= 599 ->
      nullBodyStatus (status response) = false ->
      rewriteInlineJS
        (serialize (map (visit (handlers target))
                        (tokenize (text (body response)))))
        target proxyOrigin <> None ->
      exists out,
        fst (handleRequest fetch request) = Some out
        /\ get (headers out) (js "Location") = Some rewritten)
  /\ (status response < 200 \/ 599 < status response ->
      fst (handleRequest fetch request) = Some fetchErrorResponse
      /\ has (headers fetchErrorResponse) (js "Location") = false)
  /\ (forall absoluteUrl encodedUrl,
        URL_ctor location (Some target) = Some absoluteUrl ->
        encodeURIComponent (toString absoluteUrl) = Some encodedUrl ->
        rewritten = proxyOrigin ++ js "/proxy/" ++ encodedUrl)
  /\ (URL_ctor location (Some target) = None -> rewritten = location).
Proof.
  intros H1 H2 H3 H4 Hloc proxyOrigin rewritten.
  rewrite (handleRequest_fetched _ _ _ _ _ _ H1 H2 H3 H4). cbn [fst snd].
  assert (get (headers (rewriteHeaders response target proxyOrigin)) (js "Location")
          = Some rewritten) as Hstage.
  { rewrite rewriteHeaders_location, Hloc. reflexivity. }
  split; [split; reflexivity|]. split; [|split; [|split; [|split]]].
  - intros Hplain Hc. exists (rewriteHeaders response target proxyOrigin).
    fold proxyOrigin. rewrite respond_non_html by assumption.
    split; [reflexivity|exact Hstage].
  - intros Hhtml Hrange Hnull Hjs. fold proxyOrigin.
    destruct (rewriteInlineJS _ target proxyOrigin) as [html|] eqn:E;
      [|contradiction].
    rewrite (respond_html_built _ _ _ html Hhtml Hrange Hnull E).
    eexists. split; [reflexivity|]. exact Hstage.
  - intros Hout. rewrite respond_out_of_range by exact Hout.
    split; [reflexivity|]. vm_compute. reflexivity.
  - intros absoluteUrl encodedUrl Habs Henc. unfold rewritten, rewriteLocation.
    now rewrite Habs, Henc.
  - intros Hnone. unfold rewritten, rewriteLocation. now rewrite Hnone.
Qed.

(** C9. A request whose first path segment is not [proxy] gets the fixed
    501 response and nothing is fetched; a request whose embedded target
    does not parse as a URL gets 400 with body [Invalid URL] and nothing is
    fetched; when the fetch throws, the reply is the fixed 500 response. *)
Theorem error_responses fetch request requestUrl :
  URL_ctor (url request) None = Some requestUrl ->
  let pathSegments := split 47 (pathname requestUrl) in
  let encodedUrl := join (js "/") (skipn 2 pathSegments) in
  (nth_error pathSegments 1 <> Some (js "proxy") ->
   handleRequest fetch request = (Some notProxyResponse, []))
  /\ (forall decodedUrl,
        nth_error pathSegments 1 = Some (js "proxy") ->
        truthy encodedUrl = true ->
        decodeURIComponent encodedUrl = Some decodedUrl ->
        URL_ctor (if test httpScheme decodedUrl then decodedUrl
                  else js "https://" ++ decodedUrl) None = None ->
        handleRequest fetch request = (Some invalidUrlResponse, []))
  /\ (forall targetUrl target,
        Decode (pathname requestUrl) = Target targetUrl ->
        URL_ctor targetUrl None = Some target ->
        fetch (modifiedRequest request target) = None ->
        fst (handleRequest fetch request) = Some fetchErrorResponse)
  /\ status notProxyResponse = 501
  /\ (status invalidUrlResponse = 400
      /\ body invalidUrlResponse = Text (js "Invalid URL"))
  /\ (status fetchErrorResponse = 500
      /\ body fetchErrorResponse = Text (js "Error fetching the target site.")).
Proof.
  intros Hurl pathSegments encodedUrl. unfold handleRequest. rewrite Hurl.
  split; [|split; [|split]].
  - intros Hseg. unfold Decode. fold pathSegments.
    destruct (nth_error pathSegments 1) as [segment|] eqn:E; [|reflexivity].
    destruct (JS.eqb segment (js "proxy")) eqn:Eq; [|reflexivity].
    apply eqb_eq in Eq. congruence.
  - intros decodedUrl Hseg Htruthy Hdec Hbad. unfold Decode. fold pathSegments.
    rewrite Hseg, eqb_refl. cbn [negb]. fold encodedUrl.
    unfold decodeTarget. rewrite Htruthy, Hdec.
    destruct (test httpScheme decodedUrl); cbn [negb]; now rewrite Hbad.
  - intros targetUrl target Hdec Htarget Hfetch.
    now rewrite Hdec, Htarget, Hfetch.
  - repeat split.
Qed.

(** C10 does not hold of the code.  When the upstream response is HTML and
    has a null body status (101, 204, 205 or 304), the response of line 85
    cannot be constructed, its body never being empty: the worker answers
    with the fixed 500 response and the upstream status is lost. *)
Theorem html_null_body_status_lost fetch request requestUrl targetUrl target response :
  URL_ctor (url request) None = Some requestUrl ->
  Decode (pathname requestUrl) = Target targetUrl ->
  URL_ctor targetUrl None = Some target ->
  fetch (modifiedRequest request target) = Some response ->
  includes (js "text/html") (contentType response) = true ->
  nullBodyStatus (status response) = true ->
  exists out,
    fst (handleRequest fetch request) = Some out
    /\ out = fetchErrorResponse
    /\ status out <> status response.
Proof.
  intros H1 H2 H3 H4 Hhtml Hnull. exists fetchErrorResponse.
  rewrite (handleRequest_fetched _ _ _ _ _ _ H1 H2 H3 H4).
  rewrite respond_html_null_body by assumption.
  split; [reflexivity|]. split; [reflexivity|].
  intros E. rewrite <- E in Hnull. discriminate Hnull.
Qed.

End Handler.

(** ** Rewriting references *)

Section References.
Context `{RT : Runtime}.

Lemma rewriteAttributeValue_cases attrValue target :
  rewriteAttributeValue attrValue target =
  match URL_ctor attrValue (Some target) with
  | None => attrValue
  | Some url =>
    if test httpScheme (href url)
    then match Encode (href url) with Some p => p | None => attrValue end
    else attrValue
  end.
Proof.
  unfold rewriteAttributeValue, Encode, toString.
  destruct (URL_ctor attrValue (Some target)) as [url|]; [|reflexivity].
  destruct (test httpScheme (href url)); [|reflexivity].
  cbn [negb]. now destruct (encodeURIComponent (href url)).
Qed.

(** C2. [rewriteAttributeValue] resolves the raw value against the target.
    When resolution fails, or the resolved URL is not written with
    [http://] or [https://], the raw value is returned as it is; otherwise
    the result is the proxy path [Encode] of the resolved URL.  With a target
    against which [/b/c] resolves to [https://example.com/b/c] and
    [//cdn.example.com/x] to [https://cdn.example.com/x], as against
    [https://example.com/a/], these two values map to the proxy paths of the
    resolved URLs, and [mailto:a@b.com] is returned unchanged. *)
Theorem rewriteAttributeValue_spec target :
  (forall attrValue,
     (URL_ctor attrValue (Some target) = None ->
      rewriteAttributeValue attrValue target = attrValue)
     /\ (forall url, URL_ctor attrValue (Some target) = Some url ->
          (test httpScheme (href url) = false ->
           rewriteAttributeValue attrValue target = attrValue)
          /\ (forall path, test httpScheme (href url) = true ->
               Encode (href url) = Some path ->
               rewriteAttributeValue attrValue target = path)))
  /\ (forall url, URL_ctor (js "/b/c") (Some target) = Some url ->
        href url = js "https://example.com/b/c" ->
        Some (rewriteAttributeValue (js "/b/c") target)
        = Encode (js "https://example.com/b/c"))
  /\ (forall url, URL_ctor (js "//cdn.example.com/x") (Some target) = Some url ->
        href url = js "https://cdn.example.com/x" ->
        Some (rewriteAttributeValue (js "//cdn.example.com/x") target)
        = Encode (js "https://cdn.example.com/x"))
  /\ ((forall url, URL_ctor (js "mailto:a@b.com") (Some target) = Some url ->
         href url = js "mailto:a@b.com") ->
      rewriteAttributeValue (js "mailto:a@b.com") target = js "mailto:a@b.com").
Proof.
  split; [|split; [|split]].
  - intros attrValue. rewrite rewriteAttributeValue_cases. split.
    + now intros ->.
    + intros url ->. split.
      * now intros ->.
      * now intros path -> ->.
  - intros url Hurl Hhref. rewrite rewriteAttributeValue_cases, Hurl, Hhref.
    reflexivity.
  - intros url Hurl Hhref. rewrite rewriteAttributeValue_cases, Hurl, Hhref.
    reflexivity.
  - intros H. rewrite rewriteAttributeValue_cases.
    destruct (URL_ctor (js "mailto:a@b.com") (Some target)) as [url|] eqn:E;
      [|reflexivity].
    rewrite (H url eq_refl). reflexivity.
Qed.

End References.

(** C4 does not hold of the code.  The pattern takes the first place where
    [domain=] occurs: inside the name of a cookie, the name and value are cut
    and the Domain attribute stays; of two Domain attributes, the second one
    stays. *)
Theorem rewriteSetCookie_keeps_domain :
  rewriteSetCookie (js "subdomain=www; Domain=example.com; Path=/")
  = js "sub; Domain=example.com; Path=/"
  /\ rewriteSetCookie (js "sid=1; Domain=a.example.com; Path=/; Domain=example.com")
     = js "sid=1; Path=/; Domain=example.com".
Proof. split; vm_compute; reflexivity. Qed.

(** C6 does not hold of the code.  The pattern stops before the closing quote
    of the literal and the replacement adds one: the rewritten assignment of
    [https://example.com/x] to [window.location] ends with two quotes. *)
Theorem rewriteInlineJS_doubles_quote `{RT : Runtime} target :
  rewriteInlineJS (js "window.location = " ++ dq ++ js "https://example.com/x" ++ dq)
                  target (js "https://proxy.test")
  = Some (js "window.location = " ++ dq
          ++ js "https://proxy.test/proxy/https%3A%2F%2Fexample.com%2Fx"
          ++ dq ++ dq).
Proof. vm_compute. reflexivity. Qed.

(** ** The refresh directive and the injected script *)

Lemma split_nonempty sep s : split sep s <> [].
Proof.
  destruct s as [|c t]; [discriminate|]. cbn [split].
  destruct (c =? sep); [discriminate|]. destruct (split sep t); discriminate.
Qed.

Lemma join_cons sep p q rest :
  join sep (p :: q :: rest) = p ++ sep ++ join sep (q :: rest).
Proof. reflexivity. Qed.

Lemma join_split sep s : join [sep] (split sep s) = s.
Proof.
  induction s as [|c t IH]; [reflexivity|]. cbn [split].
  pose proof (split_nonempty sep t) as Hne.
  destruct (split sep t) as [|h r] eqn:E; [congruence|].
  destruct (N.eqb_spec c sep) as [->|Hc].
  - rewrite join_cons, IH. reflexivity.
  - destruct r as [|q r].
    + cbn [join] in *. now rewrite IH.
    + rewrite join_cons in *. rewrite <- IH. reflexivity.
Qed.

Lemma split_parts sep s : Forall (Forall (fun c => c <> sep)) (split sep s).
Proof.
  induction s as [|c t IH]; [repeat constructor|]. cbn [split].
  destruct (N.eqb_spec c sep) as [->|Hc].
  - constructor; [constructor|exact IH].
  - destruct (split sep t) as [|h r]; [repeat constructor; assumption|].
    inversion IH; subst. constructor; [constructor; assumption|assumption].
Qed.

Lemma not_In_Forall sep (s : jsstring) :
  ~ In sep s <-> Forall (fun c => c <> sep) s.
Proof.
  rewrite Forall_forall. split.
  - intros H c Hc ->. exact (H Hc).
  - intros H Hin. exact (H _ Hin eq_refl).
Qed.

Lemma split_two sep s a b :
  split sep s = [a; b] <-> s = a ++ sep :: b /\ ~ In sep a /\ ~ In sep b.
Proof.
  rewrite !not_In_Forall. split.
  - intros H. pose proof (join_split sep s) as Hj.
    pose proof (split_parts sep s) as Hp. rewrite H in Hj, Hp.
    apply Forall_cons_iff in Hp as [Ha Hp]. apply Forall_cons_iff in Hp as [Hb _].
    cbn [join app] in Hj. auto.
  - intros (-> & Ha & Hb).
    rewrite split_app_sep by assumption. now rewrite split_no_sep.
Qed.

Lemma lowerChar_letter c lower :
  isLower lower = true ->
  (lowerChar c =? lower) = true <-> In c [lower; lower - 32].
Proof.
  unfold isLower, lowerChar, isUpper. intros [H1 H2]%andb_prop.
  apply N.leb_le in H1, H2. cbn [In]. rewrite N.eqb_eq.
  destruct (N.leb_spec 65 c); destruct (N.leb_spec c 90); cbn [andb]; lia.
Qed.

Lemma startsWith_url x :
  startsWith (js "url=") (toLowerCase x) = true <->
  exists u r l rest,
    x = u :: r :: l :: 61 :: rest
    /\ In u [117; 85] /\ In r [114; 82] /\ In l [108; 76].
Proof.
  change (js "url=") with [117; 114; 108; 61].
  split.
  - destruct x as [|u [|r [|l [|e rest]]]]; cbn [toLowerCase map startsWith];
      intros H; repeat (apply andb_prop in H as [? H]); try discriminate.
    match goal with H : (117 =? _) = true |- _ => rewrite N.eqb_sym in H end.
    match goal with H : (114 =? _) = true |- _ => rewrite N.eqb_sym in H end.
    match goal with H : (108 =? _) = true |- _ => rewrite N.eqb_sym in H end.
    exists u, r, l, rest.
    assert (e = 61) as ->.
    { match goal with H : (61 =? _) = true |- _ => apply N.eqb_eq in H end.
      unfold lowerChar, isUpper in *.
      destruct (N.leb_spec 65 e); destruct (N.leb_spec e 90); cbn [andb] in *; lia. }
    repeat split; [apply (lowerChar_letter u 117)|apply (lowerChar_letter r 114)
                   |apply (lowerChar_letter l 108)]; auto.
  - intros (u & r & l & rest & -> & Hu & Hr & Hl).
    cbn [toLowerCase map startsWith].
    apply (lowerChar_letter u 117) in Hu; [|reflexivity].
    apply (lowerChar_letter r 114) in Hr; [|reflexivity].
    apply (lowerChar_letter l 108) in Hl; [|reflexivity].
    rewrite (N.eqb_sym 117), (N.eqb_sym 114), (N.eqb_sym 108), Hu, Hr, Hl.
    reflexivity.
Qed.

Lemma getAttribute_setAttribute el name value :
  getAttribute (setAttribute el name value) name = Some value.
Proof.
  unfold getAttribute, setAttribute. cbn [attributes].
  induction (attributes el) as [|a attrs IH]; cbn [setAttr filter fst].
  - now rewrite HeadersFacts.sameName_refl.
  - destruct (Headers.sameName (fst a) name) eqn:E; cbn [filter fst].
    + now rewrite E.
    + now rewrite E.
Qed.

Section MetaRefresh.
Context `{RT : Runtime}.

Lemma rewriteMetaRefresh_shape el target content delay urlValue :
  getAttribute el (js "content") = Some content ->
  refreshShape content delay urlValue ->
  rewriteMetaRefresh el target
  = setAttribute el (js "content")
      (delay ++ js "; url=" ++ rewriteAttributeValue urlValue target).
Proof.
  intros Hc (second & u & r & l & Hcontent & Hd & Hs & Htrim & Hu & Hr & Hl).
  unfold rewriteMetaRefresh. rewrite Hc.
  assert (truthy content = true) as -> by (subst; now destruct delay).
  rewrite (proj2 (split_two 59 content delay second)) by auto.
  rewrite Htrim.
  rewrite (proj2 (startsWith_url _)) by (exists u, r, l, urlValue; auto).
  reflexivity.
Qed.

Lemma rewriteMetaRefresh_other el target :
  (forall content, getAttribute el (js "content") = Some content ->
     ~ exists delay urlValue, refreshShape content delay urlValue) ->
  rewriteMetaRefresh el target = el.
Proof.
  intros Hno. unfold rewriteMetaRefresh.
  destruct (getAttribute el (js "content")) as [content|]; [|reflexivity].
  specialize (Hno content eq_refl).
  destruct (truthy content); [|reflexivity].
  destruct (split 59 content) as [|delay [|second [|? ?]]] eqn:Hsplit;
    try reflexivity.
  destruct (startsWith _ _) eqn:Hstart; [|reflexivity].
  exfalso. apply Hno.
  apply startsWith_url in Hstart as (u & r & l & rest & Htrim & Hu & Hr & Hl).
  apply split_two in Hsplit as (Hcontent & Hd & Hs).
  exists delay, rest, second, u, r, l. auto 10.
Qed.

(** C7. When the [content] attribute has the shape of a refresh directive
    (exactly two parts around a semicolon, the second one, trimmed, starting
    with [url=] in any case), the handler sets it to the delay, [; url=] and
    the rest of the second part rewritten by [rewriteAttributeValue]; with
    any other content the element is left as it is.  So
    [5;url=https://example.com/x] becomes [5; url=] followed by the proxy
    path of [https://example.com/x]. *)
Theorem rewriteMetaRefresh_spec el target :
  (forall content delay urlValue,
     getAttribute el (js "content") = Some content ->
     refreshShape content delay urlValue ->
     let rewritten := rewriteAttributeValue urlValue target in
     rewriteMetaRefresh el target
     = setAttribute el (js "content") (delay ++ js "; url=" ++ rewritten)
     /\ getAttribute (rewriteMetaRefresh el target) (js "content")
        = Some (delay ++ js "; url=" ++ rewritten))
  /\ ((forall content, getAttribute el (js "content") = Some content ->
         ~ exists delay urlValue, refreshShape content delay urlValue) ->
      rewriteMetaRefresh el target = el)
  /\ (forall url,
        getAttribute el (js "content") = Some (js "5;url=https://example.com/x") ->
        URL_ctor (js "https://example.com/x") (Some target) = Some url ->
        href url = js "https://example.com/x" ->
        exists path,
          Encode (js "https://example.com/x") = Some path
          /\ getAttribute (rewriteMetaRefresh el target) (js "content")
             = Some (js "5; url=" ++ path)).
Proof.
  split; [|split].
  - intros content delay urlValue Hc Hshape rewritten.
    rewrite (rewriteMetaRefresh_shape _ _ _ _ _ Hc Hshape).
    split; [reflexivity|apply getAttribute_setAttribute].
  - apply rewriteMetaRefresh_other.
  - intros url Hc Hurl Hhref.
    assert (refreshShape (js "5;url=https://example.com/x") (js "5")
                         (js "https://example.com/x")) as Hshape.
    { exists (js "url=https://example.com/x"), 117, 114, 108.
      split; [vm_compute; reflexivity|].
      split; [vm_compute; intuition discriminate|].
      split; [vm_compute; intuition discriminate|].
      split; [vm_compute; reflexivity|]. cbn [In]. auto. }
    eexists. split; [vm_compute; reflexivity|].
    rewrite (rewriteMetaRefresh_shape _ _ _ _ _ Hc Hshape).
    rewrite getAttribute_setAttribute.
    rewrite rewriteAttributeValue_cases, Hurl, Hhref. vm_compute. reflexivity.
Qed.

End MetaRefresh.

Lemma getSubstitution_plain m template :
  ~ In 36 template -> getSubstitution m template = template.
Proof.
  induction template as [|c t IH]; [reflexivity|]. intros Hno.
  cbn [getSubstitution].
  destruct (N.eqb_spec c 36) as [->|_]; [exfalso; apply Hno; now left|].
  rewrite IH; [reflexivity|]. intros Hin. apply Hno. now right.
Qed.

Section Inject.
Context `{RT : Runtime}.

(** With a closing head tag, and no [$] in the values put into the script,
    the script stands right before the tag. *)
Lemma injectFakeEnvScript_before_head html target proxyOrigin m :
  RegExp.search headEnd html = Some m ->
  ~ In 36 (fakeEnvScript (host target) (origin target) (protocol target)
                         proxyOrigin) ->
  injectFakeEnvScript html target proxyOrigin
  = before m
    ++ fakeEnvScript (host target) (origin target) (protocol target) proxyOrigin
    ++ js "</head>" ++ after m.
Proof.
  intros Hs. unfold injectFakeEnvScript, replaceStr. cbv zeta. rewrite Hs.
  generalize (fakeEnvScript_truthy (host target) (origin target)
                (protocol target) proxyOrigin).
  generalize (fakeEnvScript (host target) (origin target) (protocol target)
                proxyOrigin).
  intros script Htruthy Hno.
  rewrite getSubstitution_plain.
  - rewrite <- app_assoc.
    assert (truthy (before m ++ script ++ js "</head>" ++ after m) = true) as ->;
      [|reflexivity].
    destruct (before m); [|reflexivity]. cbn [app].
    now apply truthy_app_l.
  - intros [H|H]%in_app_or; [exact (Hno H)|].
    vm_compute in H. intuition discriminate.
Qed.

(** C8 does not hold of the code.  A document that is not empty and has no
    closing head tag is returned as it is, without the script: [replace]
    gives back its input when nothing matches, a non-empty string is truthy,
    and the fallback of line 300 is not taken. *)
Theorem injectFakeEnvScript_no_head html target proxyOrigin :
  RegExp.search headEnd html = None ->
  truthy html = true ->
  injectFakeEnvScript html target proxyOrigin = html.
Proof.
  intros Hs Ht. unfold injectFakeEnvScript, replaceStr. cbv zeta.
  rewrite Hs, Ht. reflexivity.
Qed.
End Inject.

(** ** The statements on the sample exchanges *)

Section Witnesses.
#[local] Existing Instance Reference.runtime.
Import Sample.

Example target_parsed : URL_ctor pageUrl None = Some target.
Proof. vm_compute. reflexivity. Qed.

Example pageRequestUrl_parsed : URL_ctor (url pageRequest) None = Some pageRequestUrl.
Proof. vm_compute. reflexivity. Qed.

Lemma proxy_path_round_trip_witness :
  codeUnits pageUrl /\ URL_ctor pageUrl None <> None
  /\ Encode pageUrl = Some (js pagePath)
  /\ test httpScheme pageUrl = true /\ Decode (js pagePath) = Target pageUrl
  /\ (Decode (js pagePath) = Target pageUrl -> reencode (js pagePath) = Some (js pagePath)).
Proof.
  set (u := pageUrl). set (p := js pagePath).
  assert (codeUnits u) as H1 by (apply codeUnits_forallb; vm_compute; reflexivity).
  assert (URL_ctor u None <> None) as H2 by (vm_compute; discriminate).
  assert (Encode u = Some p) as H3 by (vm_compute; reflexivity).
  assert (test httpScheme u = true) as H4 by (vm_compute; reflexivity).
  destruct (proxy_path_round_trip u p H1 H2 H3) as [Hd Hi].
  split; [exact H1|]. split; [exact H2|]. split; [exact H3|].
  split; [exact H4|]. split; [exact (Hd H4)|].
  intros Hq. exact (proj2 (Hi p Hq)).
Defined.

Lemma rewriteAttributeValue_spec_witness :
  rewriteAttributeValue (js "/b/c") target
  = js "/proxy/https%3A%2F%2Fexample.com%2Fb%2Fc"
  /\ rewriteAttributeValue (js "//cdn.example.com/x") target
     = js "/proxy/https%3A%2F%2Fcdn.example.com%2Fx"
  /\ rewriteAttributeValue (js "mailto:a@b.com") target = js "mailto:a@b.com".
Proof.
  destruct (rewriteAttributeValue_spec target) as (_ & H1 & H2 & H3).
  pose (unwrap := fun o : option jsstring => match o with Some x => x | None => [] end).
  split; [|split].
  - refine (f_equal unwrap (H1 _ _ _)); vm_compute; reflexivity.
  - refine (f_equal unwrap (H2 _ _ _)); vm_compute; reflexivity.
  - apply H3. intros url E. vm_compute in E.
    exact (eq_sym (f_equal (fun o => match o with Some x => href x | None => [] end) E)).
Defined.

Lemma non_html_body_passes_through_witness :
  (constructible movedResponse
   /\ includes (js "text/html") (contentType movedResponse) = false
   /\ exists out,
        fst (handleRequest (upstream movedResponse) pageRequest) = Some out
        /\ body out = Stream (js "moved")
        /\ Headers.getAll (headers out) (js "Set-Cookie") = [js "sid=1; Path=/"]
        /\ Headers.get (headers out) (js "Location")
           = Some (js "https://proxy.test/proxy/https%3A%2F%2Fexample.com%2Flogin")
        /\ Headers.has (headers out) (js "X-Content-Type-Options") = false)
  /\ (status oddResponse = 999
      /\ fst (handleRequest (upstream oddResponse) pageRequest)
         = Some fetchErrorResponse).
Proof.
  split.
  - assert (constructible movedResponse) as Hc.
    { split; [split; vm_compute; discriminate
             |intros H; vm_compute in H; discriminate H]. }
    split; [exact Hc|]. split; [vm_compute; reflexivity|].
    destruct (non_html_body_passes_through (upstream movedResponse) pageRequest
                pageRequestUrl pageUrl target movedResponse)
      as (H & _); [vm_compute; reflexivity..|].
    destruct (H Hc) as (out & H1 & H2 & H3 & H4 & _ & _ & H7).
    exists out. split; [exact H1|]. split; [exact H2|].
    split; [rewrite H3; vm_compute; reflexivity|].
    split; [rewrite H4; vm_compute; reflexivity|exact H7].
  - split; [reflexivity|].
    destruct (non_html_body_passes_through (upstream oddResponse) pageRequest
                pageRequestUrl pageUrl target oddResponse)
      as (_ & H); [vm_compute; reflexivity..|].
    apply H. right. vm_compute. reflexivity.
Defined.

(** The claim of C5 as worded fails for an upstream status outside 200..599:
    the response cannot be copied, and the reply is the fixed 500 response
    with its own body, not the body of the upstream response. *)
Lemma non_html_body_replaced :
  includes (js "text/html") (contentType oddResponse) = false
  /\ body oddResponse = Stream (js "[1,2,3]")
  /\ exists out,
       fst (handleRequest (upstream oddResponse) pageRequest) = Some out
       /\ status out = 500
       /\ body out = Text (js "Error fetching the target site.").
Proof.
  split; [vm_compute; reflexivity|]. split; [reflexivity|].
  exists fetchErrorResponse. split; [vm_compute; reflexivity|].
  split; vm_compute; reflexivity.
Qed.

Lemma location_rewritten_witness :
  (Headers.get (headers redirectResponse) (js "Location") = Some (js "/login")
   /\ snd (handleRequest (upstream redirectResponse) pageRequest)
      = [modifiedRequest pageRequest target]
   /\ redirect (modifiedRequest pageRequest target) = manual
   /\ exists out,
        fst (handleRequest (upstream redirectResponse) pageRequest) = Some out
        /\ Headers.get (headers out) (js "Location")
           = Some (js "https://proxy.test/proxy/https%3A%2F%2Fexample.com%2Flogin"))
  /\ (includes (js "text/html") (contentType htmlRedirect) = true
      /\ exists out,
           fst (handleRequest (upstream htmlRedirect) pageRequest) = Some out
           /\ Headers.get (headers out) (js "Location")
              = Some (js "https://proxy.test/proxy/https%3A%2F%2Fexample.com%2Flogin"))
  /\ (status oddResponse = 999
      /\ fst (handleRequest (upstream oddResponse) pageRequest)
         = Some fetchErrorResponse).
Proof.
  split; [|split].
  - split; [vm_compute; reflexivity|].
    destruct (location_rewritten (upstream redirectResponse) pageRequest
                pageRequestUrl pageUrl target redirectResponse (js "/login"))
      as ((H1 & H2) & H3 & _); [vm_compute; reflexivity..|].
    split; [exact H1|]. split; [exact H2|].
    destruct H3 as (out & Hout & Hloc); [vm_compute; reflexivity| |].
    { split; [split; vm_compute; discriminate|intros _; reflexivity]. }
    exists out. split; [exact Hout|]. rewrite Hloc. vm_compute. reflexivity.
  - split; [vm_compute; reflexivity|].
    destruct (location_rewritten (upstream htmlRedirect) pageRequest
                pageRequestUrl pageUrl target htmlRedirect (js "/login"))
      as (_ & _ & H3 & _); [vm_compute; reflexivity..|].
    destruct H3 as (out & Hout & Hloc);
      [vm_compute; reflexivity|split; vm_compute; discriminate
      |vm_compute; reflexivity|vm_compute; discriminate|].
    exists out. split; [exact Hout|]. rewrite Hloc. vm_compute. reflexivity.
  - split; [reflexivity|].
    destruct (location_rewritten (upstream oddResponse) pageRequest
                pageRequestUrl pageUrl target oddResponse (js "/login"))
      as (_ & _ & _ & H4 & _); [vm_compute; reflexivity..|].
    apply H4. right. vm_compute. reflexivity.
Defined.

(** The claim of C3 as worded fails for an upstream response that carries a
    Location header when the reply cannot be built from it: with a status
    outside 200..599, and with a null body status on the HTML path, the reply
    is the fixed 500 response, which has no Location header. *)
Lemma location_dropped :
  (Headers.get (headers oddResponse) (js "Location") = Some (js "/login")
   /\ exists out,
        fst (handleRequest (upstream oddResponse) pageRequest) = Some out
        /\ status out = 500
        /\ Headers.get (headers out) (js "Location") = None)
  /\ (Headers.get (headers notModifiedHtml) (js "Location") = Some (js "/login")
      /\ exists out,
           fst (handleRequest (upstream notModifiedHtml) pageRequest) = Some out
           /\ status out = 500
           /\ Headers.get (headers out) (js "Location") = None).
Proof.
  split; (split; [vm_compute; reflexivity|]);
    exists fetchErrorResponse; (split; [vm_compute; reflexivity|]);
    split; vm_compute; reflexivity.
Qed.

Lemma error_responses_witness :
  handleRequest unreachable otherRequest = (Some notProxyResponse, [])
  /\ handleRequest unreachable badRequest = (Some invalidUrlResponse, [])
  /\ fst (handleRequest unreachable pageRequest) = Some fetchErrorResponse.
Proof.
  split; [|split].
  - destruct (error_responses unreachable otherRequest (requestUrl "/other/thing"))
      as (H & _); [vm_compute; reflexivity|].
    apply H. vm_compute. discriminate.
  - destruct (error_responses unreachable badRequest (requestUrl "/proxy/a%20b"))
      as (_ & H & _); [vm_compute; reflexivity|].
    apply (H (js "a b")); vm_compute; reflexivity.
  - destruct (error_responses unreachable pageRequest pageRequestUrl)
      as (_ & _ & H & _); [vm_compute; reflexivity|].
    apply (H pageUrl target); vm_compute; reflexivity.
Defined.

Lemma html_null_body_status_lost_witness :
  status emptyHtmlResponse = 204
  /\ includes (js "text/html") (contentType emptyHtmlResponse) = true
  /\ exists out,
       fst (handleRequest (upstream emptyHtmlResponse) pageRequest) = Some out
       /\ status out = 500.
Proof.
  split; [reflexivity|]. split; [vm_compute; reflexivity|].
  destruct (html_null_body_status_lost (upstream emptyHtmlResponse) pageRequest
              pageRequestUrl pageUrl target emptyHtmlResponse)
    as (out & H1 & H2 & _); try (vm_compute; reflexivity).
  exists out. split; [exact H1|]. rewrite H2. vm_compute. reflexivity.
Defined.

Lemma rewriteMetaRefresh_spec_witness :
  getAttribute (rewriteMetaRefresh refreshElement target) (js "content")
  = Some (js "5; url=/proxy/https%3A%2F%2Fexample.com%2Fx").
Proof.
  destruct (rewriteMetaRefresh_spec refreshElement target) as (_ & _ & H).
  destruct (H (Reference.mkSpecial (js "https") (js "example.com") (js "/x") [] []))
    as (path & Hp & Hc); [vm_compute; reflexivity..|].
  vm_compute in Hp. injection Hp as <-.
  rewrite Hc. vm_compute. reflexivity.
Defined.

Lemma injectFakeEnvScript_no_head_witness :
  RegExp.search headEnd (js "<p>hi</p>") = None
  /\ injectFakeEnvScript (js "<p>hi</p>") target proxyOrigin = js "<p>hi</p>".
Proof.
  split; [vm_compute; reflexivity|].
  apply injectFakeEnvScript_no_head; vm_compute; reflexivity.
Defined.

(** The relative shape: [/y] against the target, with two quotes as well. *)
Example rewriteInlineJS_relative :
  rewriteInlineJS (js "window.location = " ++ dq ++ js "/y" ++ dq)
                  target proxyOrigin
  = Some (js "window.location = " ++ dq
          ++ js "https://proxy.test/proxy/https%3A%2F%2Fexample.com%2Fy"
          ++ dq ++ dq).
Proof. vm_compute. reflexivity. Qed.

Example injectFakeEnvScript_head :
  exists script,
    injectFakeEnvScript (js "<head></HEAD><p>hi</p>") target proxyOrigin
    = js "<head>" ++ script ++ js "</head><p>hi</p>"
    /\ script = fakeEnvScript (host target) (origin target) (protocol target)
                              proxyOrigin.
Proof. eexists. split; [|reflexivity]. vm_compute. reflexivity. Qed.

End Witnesses.

(** ** More on the handler *)

Lemma decodeURIComponent_plain t : ~ In 37 t -> decodeURIComponent t = Some t.
Proof.
  induction t as [|c t IH]; [reflexivity|]. intros Hno.
  cbn [decodeURIComponent].
  destruct (N.eqb_spec c 37) as [->|_]; [exfalso; apply Hno; now left|].
  cbn [negb]. rewrite IH; [reflexivity|]. intros H. apply Hno. now right.
Qed.

Lemma notIn_forallb x (s : jsstring) :
  forallb (fun c => negb (c =? x)) s = true -> ~ In x s.
Proof.
  intros H Hin. rewrite forallb_forall in H. specialize (H x Hin).
  now rewrite N.eqb_refl in H.
Qed.

Lemma split_after_proxy t :
  split 47 (js "/proxy/" ++ t) = [] :: js "proxy" :: split 47 t.
Proof.
  change (js "/proxy/" ++ t) with ([] ++ 47 :: (js "proxy" ++ 47 :: t)).
  rewrite split_app_sep by constructor.
  rewrite split_app_sep; [reflexivity|].
  eval_js. repeat constructor; discriminate.
Qed.

Section HandlerFacts.
Context `{RT : Runtime}.
Import Headers HeadersFacts RewriteHeadersFacts.

(** Everything after [/proxy/] is the encoded target, slashes included. *)
Lemma Decode_after_proxy t :
  Decode (js "/proxy/" ++ t) =
  match decodeTarget t with Some u => Target u | None => InvalidURL end.
Proof.
  unfold Decode. rewrite split_after_proxy.
  cbn [nth_error skipn]. rewrite eqb_refl. cbn [negb].
  change (js "/") with [47]. now rewrite join_split.
Qed.

(** X1. Everything after [/proxy/] is taken as the target, slashes
    included, and a target written without escapes is used as it is: with its
    scheme when it starts with [http://] or [https://], with [https://] put
    in front otherwise; it is refused as invalid when the URL parser rejects
    the result. *)
Theorem Decode_unencoded t :
  ~ In 37 t -> truthy t = true ->
  let targetUrl := if test httpScheme t then t else js "https://" ++ t in
  Decode (js "/proxy/" ++ t) =
  match URL_ctor targetUrl None with
  | Some _ => Target targetUrl
  | None => InvalidURL
  end.
Proof.
  intros Hno Ht targetUrl. rewrite Decode_after_proxy. unfold decodeTarget.
  rewrite Ht, decodeURIComponent_plain by assumption. unfold targetUrl.
  destruct (test httpScheme t); cbn [negb]; now destruct (URL_ctor _ None).
Qed.

Lemma Decode_target_checked path targetUrl :
  Decode path = Target targetUrl ->
  test httpScheme targetUrl = true
  /\ (targetUrl = defaultTarget \/ exists target, URL_ctor targetUrl None = Some target).
Proof.
  intros H. split; [now apply (Decode_Target_scheme path)|].
  revert H. unfold Decode, decodeTarget.
  destruct (negb _); [discriminate|].
  destruct (truthy _); [|intros [= <-]; now left].
  destruct (decodeURIComponent _) as [t|]; [|discriminate].
  destruct (URL_ctor _ None) as [target|] eqn:E; [|discriminate].
  intros [= <-]. right. now exists target.
Qed.

(** X2. When what follows [/proxy/] is not well-formed percent-encoding,
    the reply is 400 [Invalid URL] and nothing is fetched. *)
Theorem malformed_escape_rejected fetch request requestUrl t :
  URL_ctor (url request) None = Some requestUrl ->
  pathname requestUrl = js "/proxy/" ++ t ->
  decodeURIComponent t = None ->
  handleRequest fetch request = (Some invalidUrlResponse, []).
Proof.
  intros Hurl Hpath Hdec. unfold handleRequest.
  rewrite Hurl, Hpath, Decode_after_proxy. unfold decodeTarget.
  destruct t as [|c t]; [discriminate Hdec|]. cbn [truthy].
  now rewrite Hdec.
Qed.

(** X3. The request sent upstream goes to the serialized target with the
    method of the inbound request and never follows redirects; it has one
    Host header, the host of the target, and every other header as received;
    its body is dropped for GET and HEAD and kept for any other method. *)
Theorem modifiedRequest_spec request target :
  url (modifiedRequest request target) = href target
  /\ method (modifiedRequest request target) = method request
  /\ redirect (modifiedRequest request target) = manual
  /\ getAll (requestHeaders (modifiedRequest request target)) (js "Host")
     = [host target]
  /\ (forall name, sameName (js "Host") name = false ->
        getAll (requestHeaders (modifiedRequest request target)) name
        = getAll (requestHeaders request) name)
  /\ (method request = js "GET" \/ method request = js "HEAD" ->
      requestBody (modifiedRequest request target) = NullBody)
  /\ (method request <> js "GET" -> method request <> js "HEAD" ->
      requestBody (modifiedRequest request target) = requestBody request).
Proof.
  unfold modifiedRequest. cbn [url method redirect requestHeaders requestBody].
  repeat split.
  - apply getAll_set_same.
  - intros name Hname. now apply getAll_set_other.
  - intros [-> | ->]; reflexivity.
  - intros H1 H2.
    destruct (JS.eqb (method request) (js "GET")) eqn:E1;
      [apply eqb_eq in E1; contradiction|].
    destruct (JS.eqb (method request) (js "HEAD")) eqn:E2;
      [apply eqb_eq in E2; contradiction|]. reflexivity.
Qed.

(** X4. The handler sends at most one request upstream, and only to a
    target that the URL parser accepted and that is written with [http://]
    or [https://]. *)
Theorem handleRequest_fetches_once fetch request out :
  In out (snd (handleRequest fetch request)) ->
  snd (handleRequest fetch request) = [out]
  /\ exists targetUrl target,
       test httpScheme targetUrl = true
       /\ URL_ctor targetUrl None = Some target
       /\ out = modifiedRequest request target.
Proof.
  unfold handleRequest.
  destruct (URL_ctor (url request) None) as [requestUrl|]; [|intros []].
  destruct (Decode (pathname requestUrl)) as [| |targetUrl] eqn:Hd;
    try (intros []).
  destruct (URL_ctor targetUrl None) as [target|] eqn:Ht; [|intros []].
  cbn [snd]. intros [<-|[]]. split; [reflexivity|].
  exists targetUrl, target. split; [|auto].
  now apply (Decode_Target_scheme (pathname requestUrl)).
Qed.

(** X5. The header stage keeps the status and the body, and the values of
    every header other than Set-Cookie, Location and the three security
    headers. *)
Theorem rewriteHeaders_frame response target proxyOrigin :
  status (rewriteHeaders response target proxyOrigin) = status response
  /\ body (rewriteHeaders response target proxyOrigin) = body response
  /\ forall name,
       sameName (js "Set-Cookie") name = false ->
       sameName (js "Location") name = false ->
       sameName (js "Content-Security-Policy") name = false ->
       sameName (js "X-Frame-Options") name = false ->
       sameName (js "X-Content-Type-Options") name = false ->
       getAll (headers (rewriteHeaders response target proxyOrigin)) name
       = getAll (headers response) name.
Proof.
  split; [reflexivity|]. split; [reflexivity|].
  intros name. apply rewriteHeaders_others.
Qed.

(** X6. A reference rewritten by [rewriteAttributeValue] leads back to the
    URL it resolved to: requested as a path of the proxy, it decodes to that
    URL. *)
Theorem rewritten_reference_decodes attrValue target resolved :
  URL_ctor attrValue (Some target) = Some resolved ->
  test httpScheme (href resolved) = true ->
  codeUnits (href resolved) ->
  encodeURIComponent (href resolved) <> None ->
  URL_ctor (href resolved) None <> None ->
  Decode (rewriteAttributeValue attrValue target) = Target (href resolved).
Proof.
  intros Hres Htest Hcu Henc Hparse.
  rewrite rewriteAttributeValue_cases, Hres, Htest.
  destruct (Encode (href resolved)) as [p|] eqn:E.
  - now apply Decode_Encode.
  - unfold Encode in E. destruct (encodeURIComponent (href resolved));
      [discriminate|contradiction].
Qed.

(** X7. A Location rewritten by [rewriteLocation] is the proxy's origin
    followed by a path that decodes to the URL the Location resolved to. *)
Theorem rewritten_location_decodes location target proxyOrigin resolved :
  URL_ctor location (Some target) = Some resolved ->
  test httpScheme (href resolved) = true ->
  codeUnits (href resolved) ->
  encodeURIComponent (href resolved) <> None ->
  URL_ctor (href resolved) None <> None ->
  exists path,
    rewriteLocation location target proxyOrigin = proxyOrigin ++ path
    /\ Decode path = Target (href resolved).
Proof.
  intros Hres Htest Hcu Henc Hparse.
  unfold rewriteLocation. rewrite Hres. unfold toString.
  destruct (encodeURIComponent (href resolved)) as [e|] eqn:E; [|contradiction].
  exists (js "/proxy/" ++ e). split; [reflexivity|].
  apply Decode_Encode; auto. unfold Encode. now rewrite E.
Qed.

End HandlerFacts.

(** ** Elements *)

Lemma setAttr_names attrs name value :
  (exists a, In a attrs /\ Headers.sameName (fst a) name = true) ->
  map fst (setAttr attrs name value) = map fst attrs.
Proof.
  induction attrs as [|a attrs IH]; intros (b & Hin & Hb); [destruct Hin|].
  cbn [setAttr]. destruct (Headers.sameName (fst a) name) eqn:E; [reflexivity|].
  cbn [map]. f_equal. apply IH. destruct Hin as [->|Hin]; [congruence|eauto].
Qed.

Lemma getAttribute_In el name v :
  getAttribute el name = Some v ->
  exists a, In a (attributes el) /\ Headers.sameName (fst a) name = true.
Proof.
  unfold getAttribute.
  destruct (filter _ (attributes el)) as [|a l] eqn:E; [discriminate|].
  intros _. exists a.
  apply (filter_In (fun a => Headers.sameName (fst a) name)). rewrite E. now left.
Qed.

Lemma getAttribute_setAttribute_other el name value other :
  Headers.sameName name other = false ->
  getAttribute (setAttribute el name value) other = getAttribute el other.
Proof.
  intros Hother. unfold getAttribute, setAttribute. cbn [attributes].
  induction (attributes el) as [|a attrs IH]; cbn [setAttr filter fst].
  - now rewrite Hother.
  - destruct (Headers.sameName (fst a) name) eqn:E; cbn [filter fst].
    + now rewrite (HeadersFacts.sameName_trans _ _ other E), Hother.
    + destruct (Headers.sameName (fst a) other); [reflexivity|exact IH].
Qed.

Ltac eval_names :=
  repeat match goal with
  | |- context [Headers.sameName (js ?a) (js ?b)] =>
    let v := eval vm_compute in (Headers.sameName (js a) (js b)) in
    change (Headers.sameName (js a) (js b)) with v
  end; cbn [andb].

Section ElementFacts.
Context `{RT : Runtime}.

(** X8. [rewriteAttr] keeps the tag, the names of the attributes and the
    values of the attributes it is not asked about; an element without the
    attribute, or with an empty one, is left as it is, and otherwise the
    attribute gets the rewritten value. *)
Theorem rewriteAttr_frame el attrName target :
  tagName (rewriteAttr el attrName target) = tagName el
  /\ map fst (attributes (rewriteAttr el attrName target))
     = map fst (attributes el)
  /\ (forall other, Headers.sameName attrName other = false ->
        getAttribute (rewriteAttr el attrName target) other
        = getAttribute el other)
  /\ (getAttribute el attrName = None \/ getAttribute el attrName = Some [] ->
      rewriteAttr el attrName target = el)
  /\ (forall val, getAttribute el attrName = Some val -> val <> [] ->
        getAttribute (rewriteAttr el attrName target) attrName
        = Some (rewriteAttributeValue val target)).
Proof.
  unfold rewriteAttr.
  destruct (getAttribute el attrName) as [val|] eqn:E.
  - destruct val as [|c val]; cbn [truthy].
    + repeat split; try reflexivity. intros val [= <-] H. now destruct H.
    + repeat split.
      * cbn [setAttribute attributes]. apply setAttr_names.
        now apply getAttribute_In with (v := c :: val).
      * intros other Hother. now apply getAttribute_setAttribute_other.
      * intros [H|H]; discriminate H.
      * intros v [= <-] _. apply getAttribute_setAttribute.
  - repeat split; try reflexivity. intros val H. discriminate H.
Qed.

(** X9. The handler of the refresh directive keeps the tag, the names of
    the attributes and the values of all attributes but [content]. *)
Theorem rewriteMetaRefresh_frame el target :
  tagName (rewriteMetaRefresh el target) = tagName el
  /\ map fst (attributes (rewriteMetaRefresh el target))
     = map fst (attributes el)
  /\ forall other, Headers.sameName (js "content") other = false ->
       getAttribute (rewriteMetaRefresh el target) other
       = getAttribute el other.
Proof.
  unfold rewriteMetaRefresh.
  destruct (getAttribute el (js "content")) as [content|] eqn:E;
    [|repeat split; reflexivity].
  destruct (truthy content); [|repeat split; reflexivity].
  destruct (split 59 content) as [|delay [|second [|? ?]]];
    try (repeat split; reflexivity).
  destruct (startsWith _ _); [|repeat split; reflexivity].
  repeat split.
  - cbn [setAttribute attributes]. apply setAttr_names.
    now apply getAttribute_In with (v := content).
  - intros other Hother. now apply getAttribute_setAttribute_other.
Qed.

(** X10. Each of the six tags has its own attribute rewritten and no
    other; a [meta] element goes through the refresh handler when its
    [http-equiv] attribute is [refresh] in any letter case, and is left as it
    is when it has no such attribute or another value; elements with any
    other tag, and everything that is not a start tag, go through
    untouched. *)
Theorem handlers_by_tag target el :
  (forall tag attr, In (tag, attr) rewrittenAttributes ->
     Headers.sameName (tagName el) (js tag) = true ->
     visit (handlers target) (StartTag el)
     = StartTag (rewriteAttr el (js attr) target))
  /\ (forall value,
        Headers.sameName (tagName el) (js "meta") = true ->
        getAttribute el (js "http-equiv") = Some value ->
        toLowerCase value = js "refresh" ->
        visit (handlers target) (StartTag el)
        = StartTag (rewriteMetaRefresh el target))
  /\ (Headers.sameName (tagName el) (js "meta") = true ->
      getAttribute el (js "http-equiv") = None
      \/ (exists value, getAttribute el (js "http-equiv") = Some value
                        /\ toLowerCase value <> js "refresh") ->
      visit (handlers target) (StartTag el) = StartTag el)
  /\ ((forall tag, In tag ["a"; "img"; "link"; "script"; "form"; "base"; "meta"]%string ->
         Headers.sameName (tagName el) (js tag) = false) ->
      visit (handlers target) (StartTag el) = StartTag el)
  /\ forall raw, visit (handlers target) (Markup raw) = Markup raw.
Proof.
  assert (forall t1 t2, Headers.sameName (tagName el) t1 = true ->
            Headers.sameName (tagName el) t2 = Headers.sameName t1 t2) as Hex
      by (intros; now apply HeadersFacts.sameName_trans).
  assert (toLowerCase (js "refresh") = js "refresh") as Hlow
      by (vm_compute; reflexivity).
  split; [|split; [|split; [|split]]].
  - intros tag attr Hin Htag.
    unfold visit, handlers. cbn [fold_left fst snd selects].
    rewrite !(Hex _ _ Htag).
    cbn [In rewrittenAttributes] in Hin.
    repeat (destruct Hin as [[= <- <-]|Hin]; [eval_names; reflexivity|]).
    destruct Hin.
  - intros value Htag Hattr Hvalue.
    unfold visit, handlers. cbn [fold_left fst snd selects].
    rewrite !(Hex _ _ Htag), Hattr. eval_names.
    unfold Headers.sameName. rewrite Hvalue, Hlow, eqb_refl. reflexivity.
  - intros Htag Hattr.
    unfold visit, handlers. cbn [fold_left fst snd selects].
    rewrite !(Hex _ _ Htag). eval_names.
    destruct Hattr as [->|(value & -> & Hvalue)]; [reflexivity|].
    unfold Headers.sameName. rewrite Hlow.
    destruct (JS.eqb (toLowerCase value) (js "refresh")) eqn:E; [|reflexivity].
    apply eqb_eq in E. contradiction.
  - intros Hnone. unfold visit, handlers. cbn [fold_left fst snd selects].
    rewrite !Hnone by (cbn [In]; auto 10). reflexivity.
  - reflexivity.
Qed.

End ElementFacts.

(** ** The HTML path *)

Section HtmlPath.
Context `{RT : Runtime}.
Import Headers HeadersFacts RewriteHeadersFacts.

(** X11. For an HTML response with a status in 200..599 that is not a null
    body status, and a page on which [rewriteInlineJS] does not throw, the
    reply has the upstream status, exactly the headers of the header stage,
    and the rewritten page with the script as its body. *)
Theorem respond_html response target proxyOrigin html :
  includes (js "text/html") (contentType response) = true ->
  200 <= status response <= 599 ->
  nullBodyStatus (status response) = false ->
  rewriteInlineJS
    (serialize (map (visit (handlers target)) (tokenize (text (body response)))))
    target proxyOrigin = Some html ->
  respond response target proxyOrigin
  = Some {| status := status response;
            headers := headers (rewriteHeaders response target proxyOrigin);
            body := Text (injectFakeEnvScript html target proxyOrigin) |}.
Proof. apply respond_html_built. Qed.

End HtmlPath.

(** ** Strings *)

Lemma startsWith_spec p s : startsWith p s = true <-> exists r, s = p ++ r.
Proof.
  revert s. induction p as [|x p IH]; intros s; cbn [startsWith].
  - split; [intros _; now exists s|reflexivity].
  - destruct s as [|y s].
    + split; [discriminate|]. intros [r H]. discriminate H.
    + rewrite andb_true_iff, N.eqb_eq, IH. split.
      * intros [-> [r ->]]. now exists r.
      * intros [r [= <- ->]]. split; [reflexivity|now exists r].
Qed.

Lemma includes_spec p s :
  includes p s = true <-> exists l r, s = l ++ p ++ r.
Proof.
  induction s as [|c s IH].
  - cbn [includes]. rewrite orb_false_r, startsWith_spec. split.
    + intros [r H]. now exists [], r.
    + intros (l & r & H). destruct l; [now exists r|discriminate H].
  - cbn [includes]. rewrite orb_true_iff, startsWith_spec, IH. split.
    + intros [[r H]|(l & r & H)]; [now exists [], r|].
      exists (c :: l), r. now rewrite H.
    + intros (l & r & H). destruct l as [|x l].
      * left. now exists r.
      * right. injection H as _ H. now exists l, r.
Qed.

Lemma includes_false_app p l s :
  includes p (l ++ s) = false -> includes p s = false.
Proof.
  intros H. destruct (includes p s) eqn:E; [|reflexivity].
  apply includes_spec in E as (a & b & ->).
  assert (includes p (l ++ a ++ p ++ b) = true) as H'
      by (apply includes_spec; exists (l ++ a), b; now rewrite <- app_assoc).
  congruence.
Qed.

Lemma includes_part a p b s :
  includes p s = false -> includes (a ++ p ++ b) s = false.
Proof.
  intros H. destruct (includes (a ++ p ++ b) s) eqn:E; [|reflexivity].
  apply includes_spec in E as (l & r & ->).
  assert (includes p (l ++ (a ++ p ++ b) ++ r) = true) as H'.
  { apply includes_spec. exists (l ++ a), (b ++ r).
    now rewrite <- !app_assoc. }
  congruence.
Qed.

Lemma toLowerCase_app a b : toLowerCase (a ++ b) = toLowerCase a ++ toLowerCase b.
Proof. apply map_app. Qed.

Lemma startsWith_false_head p c t :
  startsWith p (c :: t) = true -> p <> [] -> exists p', p = c :: p'.
Proof.
  destruct p as [|x p]; [congruence|]. cbn [startsWith].
  intros [H _]%andb_prop _. apply N.eqb_eq in H. subst. now exists p.
Qed.

(** ** The matcher *)

Module RegExpFacts.

Lemma sameChar_lower p c : sameChar true p c = (lowerChar p =? lowerChar c).
Proof.
  unfold sameChar, canonicalize, lowerChar, isLower, isUpper.
  destruct (N.leb_spec 97 p); destruct (N.leb_spec p 122);
  destruct (N.leb_spec 97 c); destruct (N.leb_spec c 122);
  destruct (N.leb_spec 65 p); destruct (N.leb_spec p 90);
  destruct (N.leb_spec 65 c); destruct (N.leb_spec c 90);
  cbn [andb]; try lia;
  match goal with
  | |- (?a =? ?b) = (?x =? ?y) =>
    destruct (N.eqb_spec a b); destruct (N.eqb_spec x y); try reflexivity; lia
  end.
Qed.

Section Seq.
Context {A : Type}.

Lemma star_ext ic a s (k1 k2 : jsstring -> option A) :
  (forall x, k1 x = k2 x) -> star ic a s k1 = star ic a s k2.
Proof.
  intros E. induction s as [|c t IH]; cbn [star]; [apply E|].
  now rewrite IH, E.
Qed.

Lemma termMatch_ext ic t s (k1 k2 : jsstring -> option A) :
  (forall x, k1 x = k2 x) -> termMatch ic t s k1 = termMatch ic t s k2.
Proof.
  intros E. destruct t as [a q]. unfold termMatch. destruct q.
  - destruct s; [reflexivity|]. now rewrite E.
  - destruct s; [apply E|]. now rewrite !E.
  - now apply star_ext.
  - destruct s; [reflexivity|]. now rewrite (star_ext _ _ _ k1 k2).
Qed.

Lemma seqMatch_app ic (ts us : list term) s (k : jsstring -> option A) :
  seqMatch ic (ts ++ us) s k = seqMatch ic ts s (fun s' => seqMatch ic us s' k).
Proof.
  revert s. induction ts as [|t ts IH]; intros s; [reflexivity|].
  cbn [app seqMatch]. apply termMatch_ext. exact IH.
Qed.

(** A literal is matched character by character, whatever the case. *)
Lemma seqMatch_literal (L : jsstring) s (k : jsstring -> option A) :
  seqMatch true (litTerms L) s k =
  if startsWith (toLowerCase L) (toLowerCase s) then k (skipn (List.length L) s)
  else None.
Proof.
  revert s. induction L as [|x L IH]; intros s; [reflexivity|].
  cbn [litTerms map seqMatch termMatch]. fold (litTerms L).
  destruct s as [|c s]; [reflexivity|].
  cbn [atomMatches toLowerCase map startsWith List.length skipn].
  rewrite sameChar_lower.
  destruct (lowerChar x =? lowerChar c); [apply IH|reflexivity].
Qed.

(** A star whose continuation never fails takes all it can. *)
Lemma star_total ic a s (f : jsstring -> A) :
  star ic a s (fun rest => Some (f rest))
  = Some (f (dropWhile (atomMatches ic a) s)).
Proof.
  induction s as [|c t IH]; [reflexivity|]. cbn [star dropWhile].
  destruct (atomMatches ic a c); [now rewrite IH|reflexivity].
Qed.

(** A star gives nothing back when what follows rejects its characters. *)
Lemma star_committed ic a s (k : jsstring -> option A) :
  (forall c t, atomMatches ic a c = true -> k (c :: t) = None) ->
  star ic a s k = k (dropWhile (atomMatches ic a) s).
Proof.
  intros Hk. induction s as [|c t IH]; [reflexivity|]. cbn [star dropWhile].
  destruct (atomMatches ic a c) eqn:E; [|reflexivity].
  rewrite IH. destruct (k (dropWhile _ t)) eqn:Ek; [reflexivity|].
  now apply Hk.
Qed.
End Seq.

(** The leftmost match is where the pattern first matches. *)
Lemma search_none r s :
  (forall l x, s = l ++ x -> matchAt r x = None) -> RegExp.search r s = None.
Proof.
  induction s as [|c t IH]; intros H; cbn [RegExp.search].
  - rewrite (H [] []) by reflexivity. now destruct (anchored r).
  - rewrite (H [] (c :: t)) by reflexivity.
    destruct (anchored r); [reflexivity|].
    rewrite IH; [reflexivity|]. intros l x ->. now apply (H (c :: l)).
Qed.

Lemma search_first r pre x caps rest :
  anchored r = false ->
  (forall l y, pre = l ++ y -> y <> [] -> matchAt r (y ++ x) = None) ->
  matchAt r x = Some (caps, rest) ->
  RegExp.search r (pre ++ x)
  = Some {| before := pre; matched := consumed x rest;
            captures := caps; after := rest |}.
Proof.
  intros Hanch. induction pre as [|c pre IH]; intros Hpre Hx.
  - cbn [app]. destruct x; cbn [RegExp.search]; now rewrite Hx.
  - pose proof (Hpre [] (c :: pre) eq_refl ltac:(discriminate)) as H0.
    cbn [app] in H0. cbn [app RegExp.search]. rewrite H0.
    rewrite Hanch, IH; [reflexivity| |assumption].
    intros l y -> Hy. now apply (Hpre (c :: l)).
Qed.

Lemma replaceAll_none r f s start :
  anchored r = false ->
  (forall l x, s = l ++ x -> matchAt r x = None) ->
  replaceAll r f s 0 start = Some s.
Proof.
  intros Hanch. revert start. induction s as [|c t IH]; intros start H;
    cbn [replaceAll]; rewrite Hanch; cbn [andb].
  - now rewrite (H [] []).
  - rewrite (H [] (c :: t)) by reflexivity.
    rewrite IH; [reflexivity|]. intros l x ->. now apply (H (c :: l)).
Qed.

End RegExpFacts.
Import RegExpFacts.

Lemma startsWith_app_long p a b :
  startsWith p (a ++ b) = true -> (List.length p <= List.length a)%nat ->
  startsWith p a = true.
Proof.
  revert a. induction p as [|x p IH]; intros a H Hlen; [reflexivity|].
  destruct a as [|y a]; [cbn [List.length] in Hlen; lia|].
  cbn [app startsWith] in *. apply andb_prop in H as [H1 H2].
  rewrite H1. cbn [andb]. apply IH; [assumption|]. cbn [List.length] in Hlen. lia.
Qed.

Lemma not_includes_suffix p l x :
  includes p (l ++ x) = false -> startsWith p x = false.
Proof.
  intros H%includes_false_app. destruct x; cbn [includes] in H;
    now apply orb_false_elim in H.
Qed.

Lemma toLowerCase_length s : List.length (toLowerCase s) = List.length s.
Proof. apply length_map. Qed.

Lemma skipn_app_exact {A} (a b : list A) : skipn (List.length a) (a ++ b) = b.
Proof. induction a; [reflexivity|assumption]. Qed.

(** ** The closing head tag *)

Lemma matchAt_headEnd x :
  matchAt headEnd x =
  if startsWith (js "</head>") (toLowerCase x) then Some ([], skipn 7 x) else None.
Proof.
  unfold matchAt, headEnd. cbn [parts ignoreCase partsMatch].
  unfold lit. fold (litTerms (js "</head>")). rewrite seqMatch_literal.
  reflexivity.
Qed.

Section HeadTag.
Context `{RT : Runtime}.

(** X12. When the page has a closing head tag, in any case, the script is
    put right before the first one, which is written back in lower case;
    the text before and after it is kept.  This needs the host, origin and
    protocol of the target and the origin of the proxy to be free of [$],
    which is special in a replacement string. *)
Theorem injectFakeEnvScript_first_head pre tag post target proxyOrigin :
  toLowerCase tag = js "</head>" ->
  includes (js "</head>") (toLowerCase (pre ++ removelast tag)) = false ->
  ~ In 36 (fakeEnvScript (host target) (origin target) (protocol target)
                         proxyOrigin) ->
  injectFakeEnvScript (pre ++ tag ++ post) target proxyOrigin
  = pre
    ++ fakeEnvScript (host target) (origin target) (protocol target) proxyOrigin
    ++ js "</head>" ++ post.
Proof.
  intros Htag Hfirst Hplain.
  assert (List.length tag = 7%nat) as Hlen
      by (rewrite <- toLowerCase_length, Htag; reflexivity).
  assert (matchAt headEnd (tag ++ post) = Some ([], post)) as Hm.
  { rewrite matchAt_headEnd, toLowerCase_app, Htag.
    assert (startsWith (js "</head>") (js "</head>" ++ toLowerCase post) = true)
      as -> by (apply startsWith_spec; eauto).
    now rewrite <- Hlen, skipn_app_exact. }
  rewrite (injectFakeEnvScript_before_head _ _ _
             {| before := pre; matched := consumed (tag ++ post) post;
                captures := []; after := post |}); [reflexivity| |assumption].
  apply search_first; [reflexivity| |exact Hm].
  intros l y -> Hy. rewrite matchAt_headEnd.
  destruct (startsWith _ _) eqn:E; [exfalso|reflexivity].
  assert (tag = removelast tag ++ [last tag 0]) as Etag
      by (apply app_removelast_last; intros ->; discriminate Hlen).
  assert (List.length (removelast tag) = 6%nat) as Hlen'.
  { apply (f_equal (@List.length N)) in Etag.
    rewrite length_app in Etag. cbn [List.length] in Etag. lia. }
  rewrite Etag, <- !app_assoc, app_assoc, toLowerCase_app in E.
  apply startsWith_app_long in E.
  - rewrite <- app_assoc, toLowerCase_app in Hfirst.
    apply not_includes_suffix in Hfirst. congruence.
  - rewrite toLowerCase_length, length_app, Hlen'.
    change (List.length (js "</head>")) with 7%nat.
    destruct y; [contradiction|]. cbn [List.length]. lia.
Qed.

End HeadTag.

(** ** The Domain attribute *)

Lemma trimStart_dropWhile s : trimStart s = dropWhile isWhiteSpace s.
Proof. induction s as [|c t IH]; [reflexivity|]. cbn. now rewrite IH. Qed.

Lemma dropWhile_ext p q s :
  (forall c, p c = q c) -> dropWhile p s = dropWhile q s.
Proof.
  intros E. induction s as [|c t IH]; [reflexivity|]. cbn. now rewrite E, IH.
Qed.

Lemma dropWhile_suffix p s : exists l, s = l ++ dropWhile p s.
Proof.
  induction s as [|c t [l IH]]; [now exists []|]. cbn [dropWhile].
  destruct (p c); [|now exists []]. exists (c :: l). cbn [app]. now f_equal.
Qed.

Lemma dropWhile_all p a b :
  forallb p a = true -> dropWhile p (a ++ b) = dropWhile p b.
Proof.
  induction a as [|c a IH]; [reflexivity|]. cbn [forallb app dropWhile].
  intros [-> H]%andb_prop. now apply IH.
Qed.

Lemma dropWhile_stop p a c b :
  p c = false -> dropWhile p (a ++ c :: b) = dropWhile p a ++ c :: b.
Proof.
  intros Hc. induction a as [|x a IH]; cbn [app dropWhile]; [now rewrite Hc|].
  now destruct (p x).
Qed.

Lemma dropSemicolon_suffix s : exists l, s = l ++ dropSemicolon s.
Proof.
  destruct s as [|c t]; [now exists []|]. cbn [dropSemicolon].
  destruct (c =? 59); [now exists [c]|now exists []].
Qed.

Lemma lowerChar_semicolon c : (59 =? lowerChar c) = (c =? 59).
Proof.
  unfold lowerChar, isUpper.
  destruct (N.leb_spec 65 c); destruct (N.leb_spec c 90); cbn [andb];
    destruct (N.eqb_spec c 59); try lia;
    match goal with |- (?a =? ?b) = _ => destruct (N.eqb_spec a b) end;
    try reflexivity; lia.
Qed.

Lemma whitespace_not_d c : isWhiteSpace c = true -> (100 =? lowerChar c) = false.
Proof.
  intros H. apply N.eqb_neq. intros E.
  unfold lowerChar, isUpper in E.
  destruct (N.leb_spec 65 c); destruct (N.leb_spec c 90); cbn [andb] in E.
  - assert (c = 68) as -> by lia. discriminate H.
  - subst c. discriminate H.
  - subst c. discriminate H.
  - subst c. discriminate H.
Qed.

Lemma startsWith_before_sep p a sep r :
  startsWith p (a ++ sep :: r) = true -> ~ In sep p -> startsWith p a = true.
Proof.
  revert a. induction p as [|x p IH]; intros a H Hno; [reflexivity|].
  destruct a as [|y a]; cbn [app startsWith] in *.
  - apply andb_prop in H as [H _]. apply N.eqb_eq in H. subst.
    exfalso. apply Hno. now left.
  - apply andb_prop in H as [H1 H2]. rewrite H1. cbn [andb].
    apply IH; [assumption|]. intros Hin. apply Hno. now right.
Qed.

Lemma domain_literal y :
  seqMatch true (lit "Domain=" ++ [(NoneOf [59], Plus)]) y
           (fun rest => Some ([], rest))
  = domainValue y.
Proof.
  unfold lit. fold (litTerms (js "Domain=")).
  rewrite seqMatch_app, seqMatch_literal. unfold domainValue.
  change (toLowerCase (js "Domain=")) with (js "domain=").
  change (List.length (js "Domain=")) with 7%nat.
  destruct (startsWith _ _); [|reflexivity].
  cbn [seqMatch termMatch]. destruct (skipn 7 y) as [|c t]; [reflexivity|].
  cbn [atomMatches existsb]. rewrite sameChar_lower, orb_false_r.
  change (lowerChar 59) with 59. rewrite lowerChar_semicolon.
  destruct (c =? 59); cbn [negb]; [reflexivity|].
  rewrite (star_total true (NoneOf [59]) t (fun rest => ([], rest))).
  do 2 f_equal. apply dropWhile_ext. intros d.
  cbn [atomMatches existsb]. rewrite sameChar_lower, orb_false_r.
  change (lowerChar 59) with 59. now rewrite lowerChar_semicolon.
Qed.

Lemma domainValue_not_space c t : isWhiteSpace c = true -> domainValue (c :: t) = None.
Proof.
  intros H. unfold domainValue. change (js "domain=") with [100;111;109;97;105;110;61].
  cbn [toLowerCase map startsWith]. now rewrite (whitespace_not_d c H).
Qed.

Lemma matchAt_domainAttribute x :
  matchAt domainAttribute x = domainValue (trimStart (dropSemicolon x)).
Proof.
  unfold matchAt, domainAttribute. cbn [parts ignoreCase partsMatch].
  cbn [app seqMatch].
  assert (forall s, termMatch true spaces s
                      (fun s' => seqMatch true (lit "Domain=" ++ [(NoneOf [59], Plus)])
                                   s' (fun rest => Some ([], rest)))
                    = domainValue (trimStart s)) as Hspaces.
  { intros s. unfold spaces, termMatch. rewrite star_committed.
    - rewrite domain_literal, trimStart_dropWhile. reflexivity.
    - intros c t Hc. rewrite domain_literal. now apply domainValue_not_space. }
  unfold spaces in Hspaces.
  unfold termMatch at 1.
  destruct x as [|c r]; [apply Hspaces|]. cbn [dropSemicolon atomMatches].
  rewrite sameChar_lower. change (lowerChar 59) with 59.
  rewrite lowerChar_semicolon.
  destruct (N.eqb_spec c 59) as [->|Hc]; [|apply Hspaces].
  rewrite !Hspaces. destruct (domainValue (trimStart r)); reflexivity.
Qed.

(** X13. A cookie in which [domain=] does not occur, in any case, is
    returned as it is. *)
Theorem rewriteSetCookie_without_domain cookieStr :
  includes (js "domain=") (toLowerCase cookieStr) = false ->
  rewriteSetCookie cookieStr = cookieStr.
Proof.
  intros Hno. unfold rewriteSetCookie, replaceStr.
  rewrite search_none; [reflexivity|].
  intros l x ->. rewrite matchAt_domainAttribute. unfold domainValue.
  destruct (dropSemicolon_suffix x) as [l1 E1].
  destruct (dropWhile_suffix isWhiteSpace (dropSemicolon x)) as [l2 E2].
  rewrite <- trimStart_dropWhile in E2.
  rewrite E1, E2, !app_assoc, toLowerCase_app in Hno.
  now rewrite (not_includes_suffix _ _ _ Hno).
Qed.

(** X14. When the first occurrence of [domain=] is the Domain attribute,
    after a semicolon and spaces, the attribute goes with its semicolon and
    spaces, up to the next semicolon or the end, and the text before and
    after it is kept. *)
Theorem rewriteSetCookie_strips_domain pre spaces name value rest :
  includes (js "domain=") (toLowerCase pre) = false ->
  forallb isWhiteSpace spaces = true ->
  toLowerCase name = js "domain=" ->
  value <> [] -> ~ In 59 value ->
  (rest = [] \/ exists r, rest = 59 :: r) ->
  rewriteSetCookie (pre ++ 59 :: spaces ++ name ++ value ++ rest) = pre ++ rest.
Proof.
  intros Hpre Hspaces Hname Hvalue Hsemi Hrest.
  assert (List.length name = 7%nat) as Hlen
      by (rewrite <- toLowerCase_length, Hname; reflexivity).
  unfold rewriteSetCookie, replaceStr.
  rewrite (search_first domainAttribute pre _ [] rest); [reflexivity..| |].
  - intros l y -> Hy. rewrite matchAt_domainAttribute.
    destruct y as [|c y]; [contradiction|].
    assert (exists b l', c :: y = l' ++ b
                         /\ dropSemicolon ((c :: y) ++ 59 :: spaces ++ name ++ value ++ rest)
                            = b ++ 59 :: spaces ++ name ++ value ++ rest)
      as (b & l' & Eb & ->).
    { cbn [app dropSemicolon]. destruct (c =? 59).
      - now exists y, [c].
      - now exists (c :: y), []. }
    rewrite trimStart_dropWhile, dropWhile_stop by reflexivity.
    destruct (dropWhile_suffix isWhiteSpace b) as [l2 E2].
    unfold domainValue.
    destruct (startsWith _ _) eqn:E; [exfalso|reflexivity].
    rewrite toLowerCase_app in E. cbn [toLowerCase map] in E.
    change (lowerChar 59) with 59 in E.
    apply startsWith_before_sep in E; [|vm_compute; intuition discriminate].
    rewrite Eb, E2, !app_assoc, toLowerCase_app in Hpre.
    apply not_includes_suffix in Hpre. congruence.
  - rewrite matchAt_domainAttribute. cbn [dropSemicolon].
    change (59 =? 59) with true. cbv iota.
    rewrite trimStart_dropWhile, dropWhile_all by assumption.
    destruct name as [|n0 name']; [discriminate Hlen|].
    assert (isWhiteSpace n0 = false) as Hn0.
    { destruct (isWhiteSpace n0) eqn:E; [|reflexivity].
      apply whitespace_not_d in E. cbn [toLowerCase map] in Hname.
      injection Hname as Hn _. rewrite Hn in E. discriminate E. }
    cbn [app dropWhile]. rewrite Hn0.
    change (n0 :: name' ++ value ++ rest) with ((n0 :: name') ++ value ++ rest).
    unfold domainValue. rewrite toLowerCase_app, Hname.
    assert (startsWith (js "domain=") (js "domain=" ++ toLowerCase (value ++ rest))
            = true) as -> by (apply startsWith_spec; eauto).
    rewrite <- Hlen, skipn_app_exact.
    destruct value as [|v0 value']; [contradiction|]. cbn [app].
    destruct (N.eqb_spec v0 59) as [->|_]; [exfalso; apply Hsemi; now left|].
    do 2 f_equal.
    assert (~ In 59 value') as Hsemi' by (intros H; apply Hsemi; now right).
    clear - Hsemi' Hrest. induction value' as [|v value' IH]; cbn [app dropWhile].
    + destruct Hrest as [->|[r ->]]; reflexivity.
    + destruct (N.eqb_spec v 59) as [->|_]; [exfalso; apply Hsemi'; now left|].
      cbn [negb]. apply IH. intros H. apply Hsemi'. now right.
Qed.

(** ** Navigation patterns *)

Lemma matchAt_navigation literal L tail x :
  startsWith (toLowerCase L) (toLowerCase x) = false ->
  matchAt (navigation literal (litTerms L ++ tail)) x = None.
Proof.
  intros H. unfold matchAt, navigation. cbn [parts ignoreCase partsMatch].
  now rewrite seqMatch_app, seqMatch_literal, H.
Qed.

Lemma replaceWith_navigation literal L tail f html :
  includes (toLowerCase L) (toLowerCase html) = false ->
  replaceWith (navigation literal (litTerms L ++ tail)) f html = Some html.
Proof.
  intros H. unfold replaceWith. cbn [global navigation].
  apply replaceAll_none; [reflexivity|].
  intros l x ->. apply matchAt_navigation.
  rewrite toLowerCase_app in H. now apply not_includes_suffix in H.
Qed.

Lemma replaceEach_shapes literal f html :
  includes (js "location") (toLowerCase html) = false ->
  includes (js "window.open") (toLowerCase html) = false ->
  replaceEach (map (navigation literal) shapes) f html = Some html.
Proof.
  intros Hloc Hopen. unfold shapes, lit. cbn [map replaceEach].
  fold (litTerms (js "window.location")) (litTerms (js "location.href"))
       (litTerms (js "window.open")) (litTerms (js "document.location")).
  rewrite !replaceWith_navigation; try reflexivity.
  - change (toLowerCase (js "document.location"))
      with (js "document." ++ js "location" ++ []).
    now apply includes_part.
  - exact Hopen.
  - change (toLowerCase (js "location.href"))
      with ([] ++ js "location" ++ js ".href").
    now apply includes_part.
  - change (toLowerCase (js "window.location"))
      with (js "window." ++ js "location" ++ []).
    now apply includes_part.
Qed.

(** X15. A page that mentions neither [location] nor [window.open], in any
    case, goes through [rewriteInlineJS] unchanged, and without an
    exception. *)
Theorem rewriteInlineJS_without_shapes `{RT : Runtime} html target proxyOrigin :
  includes (js "location") (toLowerCase html) = false ->
  includes (js "window.open") (toLowerCase html) = false ->
  rewriteInlineJS html target proxyOrigin = Some html.
Proof.
  intros Hloc Hopen. unfold rewriteInlineJS, absolutePatterns, relativePatterns.
  rewrite replaceEach_shapes by assumption.
  now apply replaceEach_shapes.
Qed.

(** ** Paths of the proxy *)

Section PathFacts.
Context `{RT : Runtime}.

(** X16. With nothing after [/proxy], the target is the built-in default
    and the handler fetches it. *)
Theorem default_target fetch request requestUrl target :
  URL_ctor (url request) None = Some requestUrl ->
  pathname requestUrl = js "/proxy" \/ pathname requestUrl = js "/proxy/" ->
  URL_ctor defaultTarget None = Some target ->
  Decode (pathname requestUrl) = Target defaultTarget
  /\ snd (handleRequest fetch request) = [modifiedRequest request target].
Proof.
  intros Hurl Hpath Htarget.
  assert (Decode (pathname requestUrl) = Target defaultTarget) as Hd.
  { destruct Hpath as [-> | ->]; [vm_compute; reflexivity|].
    change (js "/proxy/") with (js "/proxy/" ++ []).
    now rewrite Decode_after_proxy. }
  split; [exact Hd|]. unfold handleRequest. now rewrite Hurl, Hd, Htarget.
Qed.

(** X17. The first path segment has to be [proxy] exactly: with any other
    segment, such as [Proxy] or [proxyfoo], the path is refused. *)
Theorem Decode_other_segment segment rest :
  ~ In 47 segment ->
  (rest = [] \/ exists r, rest = 47 :: r) ->
  segment <> js "proxy" ->
  Decode (47 :: segment ++ rest) = NotProxy.
Proof.
  intros Hseg Hrest Hne. unfold Decode.
  assert (nth_error (split 47 (47 :: segment ++ rest)) 1 = Some segment) as ->.
  { change (47 :: segment ++ rest) with ([] ++ 47 :: segment ++ rest).
    rewrite split_app_sep by constructor. cbn [nth_error].
    apply not_In_Forall in Hseg.
    destruct Hrest as [->|[r ->]].
    - now rewrite app_nil_r, split_no_sep.
    - now rewrite split_app_sep. }
  destruct (JS.eqb segment (js "proxy")) eqn:E; [|reflexivity].
  apply eqb_eq in E. contradiction.
Qed.

End PathFacts.

(** ** More statements on the sample exchanges *)

Section MoreWitnesses.
#[local] Existing Instance Reference.runtime.
Import Sample.

Lemma Decode_unencoded_witness :
  ~ In 37 (js "example.com/a/b")
  /\ Decode (js "/proxy/" ++ js "example.com/a/b")
     = Target (js "https://" ++ js "example.com/a/b").
Proof.
  assert (~ In 37 (js "example.com/a/b")) as H1
      by (apply notIn_forallb; vm_compute; reflexivity).
  split; [exact H1|].
  pose proof (Decode_unencoded (js "example.com/a/b") H1 eq_refl) as H.
  vm_compute in H |- *. exact H.
Defined.

Lemma malformed_escape_rejected_witness :
  decodeURIComponent (js "100%") = None
  /\ handleRequest unreachable (getRequest "/proxy/100%")
     = (Some invalidUrlResponse, []).
Proof.
  split; [vm_compute; reflexivity|].
  apply (malformed_escape_rejected unreachable (getRequest "/proxy/100%")
           (requestUrl "/proxy/100%") (js "100%")); vm_compute; reflexivity.
Defined.

Lemma modifiedRequest_spec_witness :
  Headers.getAll (requestHeaders (modifiedRequest postRequest target)) (js "Host")
  = [host target]
  /\ requestBody (modifiedRequest postRequest target) = requestBody postRequest.
Proof.
  destruct (modifiedRequest_spec postRequest target)
    as (_ & _ & _ & H4 & _ & _ & H7).
  split; [exact H4|]. apply H7; vm_compute; discriminate.
Defined.

Lemma handleRequest_fetches_once_witness :
  snd (handleRequest (upstream jsonResponse) pageRequest)
  = [modifiedRequest pageRequest target].
Proof.
  apply (handleRequest_fetches_once (upstream jsonResponse) pageRequest).
  vm_compute. left. reflexivity.
Defined.

Lemma rewriteHeaders_frame_witness :
  Headers.getAll (headers (rewriteHeaders jsonResponse target proxyOrigin))
                 (js "Content-Type")
  = Headers.getAll (headers jsonResponse) (js "Content-Type").
Proof.
  destruct (rewriteHeaders_frame jsonResponse target proxyOrigin) as (_ & _ & H).
  apply H; vm_compute; reflexivity.
Defined.

Lemma rewritten_reference_decodes_witness :
  Decode (rewriteAttributeValue (js "/b/c") target)
  = Target (href (resolvedUrl "/b/c")).
Proof.
  apply rewritten_reference_decodes.
  - vm_compute. reflexivity.
  - vm_compute. reflexivity.
  - apply codeUnits_forallb. vm_compute. reflexivity.
  - vm_compute. discriminate.
  - vm_compute. discriminate.
Defined.

Lemma rewritten_location_decodes_witness :
  exists path,
    rewriteLocation (js "/login") target proxyOrigin = proxyOrigin ++ path
    /\ Decode path = Target (href (resolvedUrl "/login")).
Proof.
  apply rewritten_location_decodes.
  - vm_compute. reflexivity.
  - vm_compute. reflexivity.
  - apply codeUnits_forallb. vm_compute. reflexivity.
  - vm_compute. discriminate.
  - vm_compute. discriminate.
Defined.

Lemma rewriteAttr_frame_witness :
  getAttribute (rewriteAttr anchor (js "href") target) (js "class")
  = getAttribute anchor (js "class")
  /\ getAttribute (rewriteAttr anchor (js "href") target) (js "href")
     = Some (rewriteAttributeValue (js "/b/c") target).
Proof.
  destruct (rewriteAttr_frame anchor (js "href") target)
    as (_ & _ & H3 & _ & H5).
  split.
  - apply H3. vm_compute. reflexivity.
  - apply H5; vm_compute; [reflexivity|discriminate].
Defined.

Lemma rewriteMetaRefresh_frame_witness :
  getAttribute (rewriteMetaRefresh refreshElement target) (js "http-equiv")
  = getAttribute refreshElement (js "http-equiv").
Proof.
  destruct (rewriteMetaRefresh_frame refreshElement target) as (_ & _ & H).
  apply H. vm_compute. reflexivity.
Defined.

Lemma handlers_by_tag_witness :
  visit (handlers target) (StartTag anchor)
  = StartTag (rewriteAttr anchor (js "href") target)
  /\ (visit (handlers target) (StartTag upperRefresh)
      = StartTag (rewriteMetaRefresh upperRefresh target)
      /\ getAttribute (rewriteMetaRefresh upperRefresh target) (js "content")
         = Some (js "5; url=/proxy/https%3A%2F%2Fexample.com%2Fx"))
  /\ visit (handlers target) (StartTag charsetElement) = StartTag charsetElement.
Proof.
  destruct (handlers_by_tag target anchor) as (H & _).
  destruct (handlers_by_tag target upperRefresh) as (_ & Hrefresh & _).
  destruct (handlers_by_tag target charsetElement) as (_ & _ & Hother & _).
  split; [|split; [split|]].
  - apply (H "a"%string "href"%string); [left; reflexivity|].
    vm_compute. reflexivity.
  - apply (Hrefresh (js "Refresh")); vm_compute; reflexivity.
  - vm_compute. reflexivity.
  - apply Hother; [vm_compute; reflexivity|]. left. vm_compute. reflexivity.
Defined.

Lemma respond_html_witness :
  respond pageResponse target proxyOrigin
  = Some {| status := 200;
            headers := [ (js "Content-Type", js "text/html; charset=utf-8") ];
            body := Text (rewrittenPage
                            (fakeEnvScript (host target) (origin target)
                                           (protocol target) proxyOrigin)) |}.
Proof.
  etransitivity.
  - apply (respond_html pageResponse target proxyOrigin (rewrittenPage [])).
    + vm_compute. reflexivity.
    + split; vm_compute; discriminate.
    + vm_compute. reflexivity.
    + vm_compute. reflexivity.
  - vm_compute. reflexivity.
Defined.

Lemma injectFakeEnvScript_first_head_witness :
  injectFakeEnvScript (js "<head>" ++ js "</HEAD>" ++ js "<p>hi</p>")
                      target proxyOrigin
  = js "<head>"
    ++ fakeEnvScript (host target) (origin target) (protocol target) proxyOrigin
    ++ js "</head>" ++ js "<p>hi</p>".
Proof.
  apply injectFakeEnvScript_first_head.
  - vm_compute. reflexivity.
  - vm_compute. reflexivity.
  - apply notIn_forallb. vm_compute. reflexivity.
Defined.

Lemma rewriteSetCookie_without_domain_witness :
  rewriteSetCookie (js "sid=1; Path=/; Secure") = js "sid=1; Path=/; Secure".
Proof.
  apply rewriteSetCookie_without_domain. vm_compute. reflexivity.
Defined.

Lemma rewriteSetCookie_strips_domain_witness :
  rewriteSetCookie (js "sid=1" ++ 59 :: js " " ++ js "Domain="
                    ++ js "example.com" ++ js "; Path=/; HttpOnly")
  = js "sid=1" ++ js "; Path=/; HttpOnly".
Proof.
  apply rewriteSetCookie_strips_domain.
  - vm_compute. reflexivity.
  - vm_compute. reflexivity.
  - vm_compute. reflexivity.
  - vm_compute. discriminate.
  - apply notIn_forallb. vm_compute. reflexivity.
  - right. eexists. vm_compute. reflexivity.
Defined.

Lemma rewriteInlineJS_without_shapes_witness :
  rewriteInlineJS (js "<p>hi</p>") target proxyOrigin = Some (js "<p>hi</p>").
Proof.
  apply rewriteInlineJS_without_shapes; vm_compute; reflexivity.
Defined.

Lemma default_target_witness :
  Decode (pathname (requestUrl "/proxy/")) = Target defaultTarget
  /\ snd (handleRequest (upstream jsonResponse) (getRequest "/proxy/"))
     = [modifiedRequest (getRequest "/proxy/") defaultUrl].
Proof.
  apply default_target.
  - vm_compute. reflexivity.
  - right. vm_compute. reflexivity.
  - vm_compute. reflexivity.
Defined.

Lemma Decode_other_segment_witness :
  Decode (47 :: js "Proxy" ++ js "/x") = NotProxy.
Proof.
  apply Decode_other_segment.
  - apply notIn_forallb. vm_compute. reflexivity.
  - right. eexists. vm_compute. reflexivity.
  - vm_compute. discriminate.
Defined.

End MoreWitnesses.
